(** * The screenshot streamer

    A shallow embedding of [screenshot_streamer.py]: the configuration
    record, the mutable streamer object, and the coroutines [start], [stop],
    [_wait_for_target], [_capture_loop], [_capture_and_send] and [_send_frame].

    The coroutines talk to the outside world (the clock, the probed target, the
    headless browser, the control plane).  Every such call is answered by an
    explicit environment value, and every call the program makes is recorded in
    a trace of events, so that the statements below can speak about "the POSTs
    that were made" or "the sleeps between two attempts". *)

From Stdlib Require Import ZArith QArith List String Bool Lia Sorted.
From Stdlib Require Strings.Byte DecimalString.
Import ListNotations.

Local Open Scope string_scope.
Local Open Scope list_scope.
Local Open Scope Z_scope.

(** ** Data model *)

(** [class StreamerConfig]: the two [float] fields are rationals here. *)
Record StreamerConfig := {
  target_url : string;
  control_plane_url : string;
  session_id : string;
  auth_token : string;
  interval : Q;
  viewport_width : Z;
  viewport_height : Z;
  quality : Z;
  max_retries : Z;
  retry_delay : Q
}.

(** The dataclass defaults, as [main] relies on them. *)
Definition mkStreamerConfig (target control session token : string)
    (ival : Q) (w h q : Z) : StreamerConfig :=
  {| target_url := target; control_plane_url := control;
     session_id := session; auth_token := token;
     interval := ival; viewport_width := w; viewport_height := h;
     quality := q; max_retries := 3; retry_delay := 1 |}.

(** An instance of [Exception], what [except Exception] catches; only its
    message is kept. *)
Inductive Exn := Exception (msg : string).

(** How an awaited call completes: with a value or with a raised exception. *)
Inductive Completion (A : Type) :=
| Returned (a : A)
| Raised (e : Exn).
Arguments Returned {A} a.
Arguments Raised {A} e.

(** A resource that has an explicit close operation. *)
Inductive Handle := Open | Closed.

(** The object [ScreenshotStreamer], field by field. *)
Record ScreenshotStreamer := {
  config : StreamerConfig;
  running : bool;
  browser : option Handle;
  page : option unit;
  frame_count : Z;
  last_frame_hash : option string;
  _http_client : option Handle
}.

(** [ScreenshotStreamer.__init__]. *)
Definition mkScreenshotStreamer (cfg : StreamerConfig) : ScreenshotStreamer :=
  {| config := cfg; running := false; browser := None; page := None;
     frame_count := 0; last_frame_hash := None; _http_client := None |}.

(** The JSON body built by [_send_frame]. *)
Record Payload := {
  type_ : string;
  frameNumber : Z;
  frameHash : string;
  timestamp : Q;
  imageData : string;
  imageType : string;
  width : Z;
  height : Z
}.

(** The [print] calls of the module, one constructor per format string. *)
Inductive LogMsg :=
| LogStarting
| LogTargetUrl (url : string)
| LogInterval (secs : Q)
| LogNeverAvailable
| LogNavigated (url : string)
| LogNavigateFailed (e : Exn)
| LogStopping
| LogWaiting
| LogTargetAvailable (status : Z)
| LogCaptureError (e : Exn)
| LogScreenshotFailed (e : Exn)
| LogSentFrame (n : Z)
| LogSendFailed (status : Z)
| LogSendError (attempt : Z) (e : Exn).

(** What the program does to the outside world.  HTTP events carry the way
    the request completed. *)
Inductive Event :=
| Print (m : LogMsg)
| Get (url : string) (r : Completion Z)
| Post (endpoint : string) (body : Payload) (authorization : string)
       (r : Completion Z)
| Sleep (secs : Q)
| OpenClient
| CloseClient
| Launch
| NewPage (w h : Z)
| Goto (url : string)
| Screenshot (q : Z)
| CloseBrowser
| ExitPlaywright.

(** ** Environment

    The event loop is single threaded: the only other task that ever runs is
    [stop()], scheduled by the signal handler of [main], and it can only run
    while the streamer is suspended at an [await].  An [Await A] is the answer
    of the world at one suspension point: whether [stop()] ran meanwhile, and
    the value the coroutine is resumed with. *)
Record Await (A : Type) := {
  stop_requested : bool;
  result : A
}.
Arguments stop_requested {A} _.
Arguments result {A} _.

Definition resume {A} (a : A) : Await A :=
  {| stop_requested := false; result := a |}.
Definition resume_stopped {A} (a : A) : Await A :=
  {| stop_requested := true; result := a |}.

(** One pass through the [for attempt in range(...)] body of [_send_frame]. *)
Record AttemptEnv := {
  post : Await (Completion Z);
  backoff : Await unit
}.

(** One iteration of [_capture_loop]. *)
Record CycleEnv := {
  shot : Await (Completion (list Byte.byte));
  stamp : Q;
  attempts : Z -> AttemptEnv;
  pause : Await unit
}.

(** One iteration of the [while] of [_wait_for_target]; the readings of the
    clock are rationals. *)
Record ProbeEnv := {
  clock : Q;
  probe : Await (Completion Z);
  nap : Await unit
}.

(** A whole run of [start]. *)
Record StartEnv := {
  t0 : Q;
  probes : list ProbeEnv;
  launch : Await (Completion unit);
  new_page : Await (Completion unit);
  goto : Await (Completion unit);
  cycles : list CycleEnv;
  aclose : Await unit
}.

(** ** The coroutine monad: state, trace, exceptions *)

(** [Pending] is a coroutine still suspended when the scripted environment
    ends: neither a return nor an exception. *)
Inductive Outcome (A : Type) :=
| Ok (a : A)
| Raise (e : Exn)
| Pending.
Arguments Ok {A} a.
Arguments Raise {A} e.
Arguments Pending {A}.

Record Run (A : Type) := {
  outcome : Outcome A;
  final : ScreenshotStreamer;
  trace : list Event
}.
Arguments outcome {A} _.
Arguments final {A} _.
Arguments trace {A} _.

Definition M (A : Type) := ScreenshotStreamer -> Run A.

Definition ret {A} (a : A) : M A :=
  fun self => {| outcome := Ok a; final := self; trace := [] |}.

Definition raise {A} (e : Exn) : M A :=
  fun self => {| outcome := Raise e; final := self; trace := [] |}.

Definition pending {A} : M A :=
  fun self => {| outcome := Pending; final := self; trace := [] |}.

Definition bind {A B} (m : M A) (k : A -> M B) : M B :=
  fun self =>
    let r := m self in
    match outcome r with
    | Ok a =>
        let r' := k a (final r) in
        {| outcome := outcome r'; final := final r';
           trace := trace r ++ trace r' |}
    | Raise e => {| outcome := Raise e; final := final r; trace := trace r |}
    | Pending => {| outcome := Pending; final := final r; trace := trace r |}
    end.

(** [try: m  except Exception as e: h e]. *)
Definition try_except {A} (m : M A) (h : Exn -> M A) : M A :=
  fun self =>
    let r := m self in
    match outcome r with
    | Raise e =>
        let r' := h e (final r) in
        {| outcome := outcome r'; final := final r';
           trace := trace r ++ trace r' |}
    | _ => r
    end.

Declare Scope coroutine_scope.
Delimit Scope coroutine_scope with co.
Notation "x <- m ;; k" := (bind m (fun x => k))
  (at level 61, m at next level, right associativity) : coroutine_scope.
Notation "m ;; k" := (bind m (fun _ => k))
  (at level 61, right associativity) : coroutine_scope.
Local Open Scope coroutine_scope.

Definition get_self : M ScreenshotStreamer :=
  fun self => {| outcome := Ok self; final := self; trace := [] |}.

Definition set_self (f : ScreenshotStreamer -> ScreenshotStreamer) : M unit :=
  fun self => {| outcome := Ok tt; final := f self; trace := [] |}.

Definition emit (e : Event) : M unit :=
  fun self => {| outcome := Ok tt; final := self; trace := [e] |}.

Definition print (m : LogMsg) : M unit := emit (Print m).

Definition when (b : bool) (m : M unit) : M unit :=
  if b then m else ret tt.

(** Field updates of [self]. *)
Definition set_running (b : bool) (s : ScreenshotStreamer) :=
  {| config := config s; running := b; browser := browser s; page := page s;
     frame_count := frame_count s; last_frame_hash := last_frame_hash s;
     _http_client := _http_client s |}.
Definition set_browser (b : option Handle) (s : ScreenshotStreamer) :=
  {| config := config s; running := running s; browser := b; page := page s;
     frame_count := frame_count s; last_frame_hash := last_frame_hash s;
     _http_client := _http_client s |}.
Definition set_page (p : option unit) (s : ScreenshotStreamer) :=
  {| config := config s; running := running s; browser := browser s; page := p;
     frame_count := frame_count s; last_frame_hash := last_frame_hash s;
     _http_client := _http_client s |}.
Definition set_frame_count (n : Z) (s : ScreenshotStreamer) :=
  {| config := config s; running := running s; browser := browser s;
     page := page s; frame_count := n; last_frame_hash := last_frame_hash s;
     _http_client := _http_client s |}.
Definition set_last_frame_hash (h : option string) (s : ScreenshotStreamer) :=
  {| config := config s; running := running s; browser := browser s;
     page := page s; frame_count := frame_count s; last_frame_hash := h;
     _http_client := _http_client s |}.
Definition set_http_client (c : option Handle) (s : ScreenshotStreamer) :=
  {| config := config s; running := running s; browser := browser s;
     page := page s; frame_count := frame_count s;
     last_frame_hash := last_frame_hash s; _http_client := c |}.

(** ** [ScreenshotStreamer.stop] *)
Definition stop : M unit :=
  print LogStopping ;;
  set_self (set_running false) ;;
  self <- get_self ;;
  match browser self with
  | Some _ => emit CloseBrowser ;; set_self (set_browser (Some Closed))
  | None => ret tt
  end.

(** An [await]: the coroutine is suspended, [stop()] may run, and the
    coroutine is resumed with the answer of the world. *)
Definition await {A} (w : Await A) : M A :=
  when (stop_requested w) stop ;; ret (result w).

(** An awaited call that may raise. *)
Definition complete {A} (c : Completion A) : M A :=
  match c with
  | Returned a => ret a
  | Raised e => raise e
  end.

(** [await asyncio.sleep(secs)]. *)
Definition sleep (secs : Q) (w : Await unit) : M unit :=
  emit (Sleep secs) ;; await w.

(** [range(n)] on Python integers: empty when [n <= 0]. *)
Definition range (n : Z) : list Z := map Z.of_nat (seq 0 (Z.to_nat n)).

(** ** [ScreenshotStreamer._send_frame] *)

Definition stream_frame_endpoint (cfg : StreamerConfig) : string :=
  (control_plane_url cfg ++ "/sessions/" ++ session_id cfg
     ++ "/stream-frame")%string.

Definition bearer (cfg : StreamerConfig) : string :=
  ("Bearer " ++ auth_token cfg)%string.

(** [await self._http_client.post(endpoint, json=payload, headers=...)],
    returning [response.status_code]. *)
Definition http_post (endpoint : string) (body : Payload)
    (authorization : string) (w : Await (Completion Z)) : M Z :=
  emit (Post endpoint body authorization (result w)) ;;
  c <- await w ;;
  complete c.

(** One pass through the body of the [for attempt in ...] loop.  It yields
    [true] when the function returns from inside the loop. *)
Definition send_attempt (env : Z -> AttemptEnv) (endpoint : string)
    (body : Payload) (attempt : Z) : M bool :=
  try_except
    (self <- get_self ;;
     status_code <- http_post endpoint body (bearer (config self))
                      (post (env attempt)) ;;
     if status_code =? 200 then
       self <- get_self ;;
       when (frame_count self mod 10 =? 0)
            (print (LogSentFrame (frame_count self))) ;;
       ret true
     else
       print (LogSendFailed status_code) ;;
       ret false)
    (fun e =>
       self <- get_self ;;
       print (LogSendError (attempt + 1) e) ;;
       when (attempt <? max_retries (config self) - 1)
            (sleep (retry_delay (config self)) (backoff (env attempt))) ;;
       ret false).

(** The [for attempt in range(self.config.max_retries)] loop, for the
    attempts still to be made. *)
Fixpoint send_attempts (env : Z -> AttemptEnv) (endpoint : string)
    (body : Payload) (todo : list Z) : M unit :=
  match todo with
  | [] => ret tt
  | attempt :: later =>
      returned <- send_attempt env endpoint body attempt ;;
      if returned : bool then ret tt
      else send_attempts env endpoint body later
  end.

(** The [payload] dictionary of [_send_frame]. *)
Definition frame_payload (cfg : StreamerConfig) (number : Z) (now : Q)
    (frame_data frame_hash : string) : Payload :=
  {| type_ := "screenshot_frame";
     frameNumber := number;
     frameHash := frame_hash;
     timestamp := now;
     imageData := frame_data;
     imageType := "jpeg";
     width := viewport_width cfg;
     height := viewport_height cfg |}.

(** [now] is what [time.time()] returns when the payload is built. *)
Definition _send_frame (env : Z -> AttemptEnv) (now : Q)
    (frame_data frame_hash : string) : M unit :=
  self <- get_self ;;
  match _http_client self with
  | None => ret tt
  | Some _ =>
      let endpoint := stream_frame_endpoint (config self) in
      let payload :=
        frame_payload (config self) (frame_count self) now
                      frame_data frame_hash in
      send_attempts env endpoint payload (range (max_retries (config self)))
  end.

(** ** [ScreenshotStreamer._wait_for_target] *)

(** [x < y] on the clock readings. *)
Definition Qlt_bool (x y : Q) : bool := negb (Qle_bool y x).

(** The [try] block of one iteration: a fresh client issues the GET.  It
    yields [true] when the function returns [True] from inside the loop. *)
Definition probe_once (env : ProbeEnv) : M bool :=
  try_except
    (self <- get_self ;;
     emit (Get (target_url (config self)) (result (probe env))) ;;
     c <- await (probe env) ;;
     status_code <- complete c ;;
     if status_code <? 500 then
       print (LogTargetAvailable status_code) ;;
       ret true
     else ret false)
    (fun _ => ret false).

(** The [while time.time() - start < timeout] loop.  [clock env] is what
    [time.time()] returns when the loop condition of that iteration is
    evaluated. *)
Fixpoint probe_loop (timeout start : Q) (envs : list ProbeEnv) : M bool :=
  match envs with
  | [] => pending
  | env :: rest =>
      if Qlt_bool (clock env - start) timeout then
        self <- get_self ;;
        if negb (running self) then ret false
        else
          returned <- probe_once env ;;
          if returned : bool then ret true
          else
            sleep 1 (nap env) ;;
            probe_loop timeout start rest
      else ret false
  end.

(** [timeout] is 60.0 unless the caller says otherwise; [start] is what
    [time.time()] returns on entry. *)
Definition _wait_for_target (timeout start : Q) (envs : list ProbeEnv)
    : M bool :=
  print LogWaiting ;;
  probe_loop timeout start envs.

(** ** [ScreenshotStreamer._capture_loop] *)

Section CaptureLoop.

(** The coroutine called in the [try] of the loop. *)
Variable cycle : CycleEnv -> M unit.

Fixpoint capture_loop_of (envs : list CycleEnv) : M unit :=
  self <- get_self ;;
  if running self then
    match envs with
    | [] => pending
    | env :: rest =>
        try_except (cycle env)
                   (fun e => print (LogCaptureError e)) ;;
        self <- get_self ;;
        sleep (interval (config self)) (pause env) ;;
        capture_loop_of rest
    end
  else ret tt.

End CaptureLoop.

(** [async with async_playwright() as p: m]: the context is left on a
    return and on an exception alike. *)
Definition async_with_playwright {A} (m : M A) : M A :=
  fun self =>
    let r := m self in
    match outcome r with
    | Pending => r
    | _ => {| outcome := outcome r; final := final r;
              trace := trace r ++ [ExitPlaywright] |}
    end.

(** * The one-shot utilities

    [get_element_at_point.py] and [take_screenshot.py] drive the browser
    through the synchronous API; the first one injects a script into the
    page. *)

(** ** The script injected by [get_element_at_point.py] *)
Module ElementScript.

(** A JavaScript value, by its [typeof]; [JsObject] is any object but
    [null]. *)
Inductive JsValue :=
| JsUndefined
| JsNull
| JsBoolean (b : bool)
| JsNumber (n : Q)
| JsString (s : string)
| JsSymbol
| JsBigInt (n : Z)
| JsFunction
| JsObject.

(** The fields of a DOM element the script reads.  [className] is [None]
    when it is not a string (an [SVGAnimatedString], say). *)
Record Node := {
  id : string;
  tagName : string;
  className : option string
}.

(** An element visited by the walk of [generateSelector], with the children
    of its parent element before and after it ([None]: no parent
    element). *)
Record Level := {
  node : Node;
  siblings : option (list Node * list Node)
}.

(** The [type] of a fiber: a function component with its [displayName] and
    [name] (the empty string when missing), a host component, or anything
    else. *)
Inductive FiberType :=
| TypeFunction (displayName name : string)
| TypeString (tag : string)
| TypeOther.

(** A fiber: its type and the entries of [memoizedProps] ([None] when the
    field is falsy). *)
Record Fiber := {
  fiber_type : FiberType;
  memoizedProps : option (list (string * JsValue))
}.

Record ReactInfo := {
  name : string;
  props : list (string * JsValue)
}.

Record Rect := { x : Q; y : Q; width : Q; height : Q }.

(** The object the script returns. *)
Record ElementInfo := {
  selector : string;
  element_tag : string;
  text : option string;
  react : option ReactInfo;
  boundingRect : Rect
}.

(** What [document.elementFromPoint(x, y)] gives the script: the element,
    the elements the [while] of [generateSelector] can visit (the element
    first, then its ancestors, [document.body] and what is above it left
    out), the fibers reached from the element through [return] ([None]: the
    element has no fiber key), its text and its rectangle. *)
Record Target := {
  element : Node;
  chain : list Level;
  fibers : option (list Fiber);
  innerText : string;
  rect : Rect
}.

Section Script.

(** [String.prototype.toLowerCase], and [s.trim().split(/\s+/)]. *)
Variable toLowerCase : string -> string.
Variable split_whitespace : string -> list string.

(** [c && !c.startsWith('_')]. *)
Definition usable_class (c : string) : bool :=
  negb (String.eqb c "") && negb (String.prefix "_" c).

(** The classes a segment shows: [classes.slice(0, 2)]. *)
Definition shown_classes (n : Node) : list string :=
  match className n with
  | Some cls =>
      if String.eqb cls "" then []
      else firstn 2 (filter usable_class (split_whitespace cls))
  | None => []
  end.

Definition same_tag (n m : Node) : bool :=
  String.eqb (tagName m) (tagName n).

(** [same.indexOf(current) + 1] when the segment gets a [:nth-of-type]. *)
Definition nth_of_type (l : Level) : option nat :=
  match siblings l with
  | Some (before, after) =>
      let children := before ++ node l :: after in
      if (1 <? List.length children)%nat then
        let same := filter (same_tag (node l)) children in
        if (1 <? List.length same)%nat
        then Some (List.length (filter (same_tag (node l)) before) + 1)%nat
        else None
      else None
  | None => None
  end.

Definition decimal (n : nat) : string :=
  DecimalString.NilEmpty.string_of_uint (Nat.to_uint n).

(** The [sel] of one pass of the [while]. *)
Definition segment (l : Level) : string :=
  let sel := toLowerCase (tagName (node l)) in
  let sel :=
    match shown_classes (node l) with
    | [] => sel
    | classes => (sel ++ "." ++ String.concat "." classes)%string
    end in
  match nth_of_type l with
  | Some k => (sel ++ ":nth-of-type(" ++ decimal k ++ ")")%string
  | None => sel
  end.

(** [path] when the [while] ends: each pass puts its segment in front, and
    the third pass is the last. *)
Definition selector_path (levels : list Level) : list string :=
  rev (map segment (firstn 3 levels)).

Definition generateSelector (t : Target) : string :=
  if negb (String.eqb (id (element t)) "") then ("#" ++ id (element t))%string
  else String.concat " > " (selector_path (chain t)).

(** [k === 'children' || typeof v === 'function' ||
    (typeof v === 'object' && v !== null)]. *)
Definition skipped_prop (entry : string * JsValue) : bool :=
  String.eqb (fst entry) "children"
  || match snd entry with
     | JsFunction | JsObject => true
     | _ => false
     end.

(** [displayName || name || 'Unknown']. *)
Definition component_name (displayName name : string) : string :=
  if negb (String.eqb displayName "") then displayName
  else if negb (String.eqb name "") then name
  else "Unknown".

(** The [while (node)] of [getReactInfo]. *)
Fixpoint first_component (nodes : list Fiber) : option ReactInfo :=
  match nodes with
  | [] => None
  | fiber :: up =>
      match fiber_type fiber with
      | TypeFunction displayName name =>
          let props :=
            match memoizedProps fiber with
            | Some entries => entries
            | None => []
            end in
          Some {| name := component_name displayName name;
                  props := filter (fun e => negb (skipped_prop e)) props |}
      | TypeString _ => first_component up
      | TypeOther => first_component up
      end
  end.

Definition getReactInfo (t : Target) : option ReactInfo :=
  match fibers t with
  | None => None
  | Some nodes => first_component nodes
  end.

(** The arrow function itself, applied to what [elementFromPoint]
    returned. *)
Definition get_element (el : option Target) : option ElementInfo :=
  match el with
  | None => None
  | Some t =>
      Some {| selector := generateSelector t;
              element_tag := toLowerCase (tagName (element t));
              text := if String.eqb (innerText t) "" then None
                      else Some (substring 0 200 (innerText t));
              react := getReactInfo t;
              boundingRect := rect t |}
  end.

End Script.

End ElementScript.

(** ** The synchronous scripts *)
Module Script.

(** What a script prints: a plain line, [json.dumps({"error": msg})] or
    [json.dumps({"element": element})]. *)
Inductive Message :=
| Line (text : string)
| ErrorObject (msg : string)
| ElementObject (element : ElementScript.ElementInfo).

Inductive Event :=
| Stdout (m : Message)
| Stderr (m : Message)
| StartPlaywright
| Launch
| NewContext (w h : Z)
| NewPage
| Goto (url wait_until : string) (timeout : Z)
| Evaluate (x y : Z)
| Screenshot (path : string) (full_page : bool)
| ContextClose
| BrowserClose
| StopPlaywright.

(** A synchronous computation: the calls it made, and how it ended. *)
Definition Cmd (A : Type) : Type := list Event * Completion A.

Definition ret {A} (a : A) : Cmd A := ([], Returned a).

Definition bind {A B} (m : Cmd A) (k : A -> Cmd B) : Cmd B :=
  match snd m with
  | Returned a => (fst m ++ fst (k a), snd (k a))
  | Raised e => (fst m, Raised e)
  end.

(** A call of the browser API, recorded, that ends as the world says. *)
Definition call {A} (e : Event) (c : Completion A) : Cmd A := ([e], c).

Definition say (e : Event) : Cmd unit := ([e], Returned tt).

(** [try: m  except Exception as e: h e]. *)
Definition try_except {A} (m : Cmd A) (h : Exn -> Cmd A) : Cmd A :=
  match snd m with
  | Returned a => m
  | Raised e => (fst m ++ fst (h e), snd (h e))
  end.

(** [try: m  finally: fin]: [fin] runs however [m] ends, and an exception
    of [fin] replaces the outcome of [m]. *)
Definition try_finally {A} (m : Cmd A) (fin : Cmd unit) : Cmd A :=
  (fst m ++ fst fin,
   match snd fin with
   | Returned _ => snd m
   | Raised e => Raised e
   end).

(** [with sync_playwright() as p: m]. *)
Definition with_playwright {A} (m : Cmd A) : Cmd A :=
  bind (say StartPlaywright) (fun _ => try_finally m (say StopPlaywright)).

(** [str(e)]. *)
Definition str (e : Exn) : string :=
  match e with Exception msg => msg end.

(** The exit status of [sys.exit(main())]: the integer returned, or 1 when
    [main] raises. *)
Definition exit_status (r : Cmd Z) : Z :=
  match snd r with
  | Returned code => code
  | Raised _ => 1
  end.

Definition stdout_lines (t : list Event) : list Message :=
  flat_map (fun e => match e with Stdout m => [m] | _ => [] end) t.

Definition stderr_lines (t : list Event) : list Message :=
  flat_map (fun e => match e with Stderr m => [m] | _ => [] end) t.

End Script.

(** ** [get_element_at_point.py] *)
Module GetElementAtPoint.

Import Script.

(** How the calls of one run end. *)
Record Env := {
  installed : bool;
  launch : Completion unit;
  new_context : Completion unit;
  new_page : Completion unit;
  goto : Completion unit;
  evaluate : Completion (option ElementScript.ElementInfo);
  context_close : Completion unit;
  browser_close : Completion unit
}.

Section Main.

(** [int(s)] on a string: [None] stands for [ValueError]. *)
Variable int : string -> option Z.

(** Lines 97 to 104: the viewport. *)
Definition viewport (argv : list string) : Z * Z :=
  let viewport_width := 1280 in
  let viewport_height := 720 in
  if (6 <=? List.length argv)%nat then
    match int (nth 4 argv "") with
    | Some w =>
        match int (nth 5 argv "") with
        | Some h => (w, h)
        | None => (w, viewport_height)
        end
    | None => (viewport_width, viewport_height)
    end
  else (viewport_width, viewport_height).

Definition usage : string :=
  "Usage: get_element_at_point.py <url> <x> <y> [viewport_width] [viewport_height]".

(** The block under [with sync_playwright() as p]. *)
Definition inspect (url : string) (x y : Z) (view : Z * Z) (env : Env)
    : Cmd Z :=
  bind (call Launch (launch env)) (fun _ =>
  try_finally
    (try_except
       (bind (call (NewContext (fst view) (snd view)) (new_context env))
          (fun _ =>
        bind (call NewPage (new_page env)) (fun _ =>
        bind (call (Goto url "domcontentloaded" 15000) (goto env)) (fun _ =>
        bind (call (Evaluate x y) (evaluate env)) (fun element =>
        bind (call ContextClose (context_close env)) (fun _ =>
        match element with
        | None =>
            bind (say (Stdout (ErrorObject "No element at point")))
                 (fun _ => ret 0)
        | Some el =>
            bind (say (Stdout (ElementObject el))) (fun _ => ret 0)
        end))))))
       (fun e => bind (say (Stderr (ErrorObject (str e)))) (fun _ => ret 1)))
    (call BrowserClose (browser_close env))).

Definition main (argv : list string) (env : Env) : Cmd Z :=
  if (List.length argv <? 4)%nat then
    bind (say (Stderr (ErrorObject usage))) (fun _ => ret 1)
  else
    let url := nth 1 argv "" in
    match int (nth 2 argv ""), int (nth 3 argv "") with
    | Some x, Some y =>
        let view := viewport argv in
        if installed env then with_playwright (inspect url x y view env)
        else
          bind (say (Stderr (ErrorObject "playwright not installed")))
               (fun _ => ret 1)
    | _, _ =>
        bind (say (Stderr (ErrorObject "x and y must be integers")))
             (fun _ => ret 1)
    end.

End Main.

End GetElementAtPoint.

(** ** [take_screenshot.py] *)
Module TakeScreenshot.

Import Script.

(** What [parser.parse_args()] returns. *)
Record Args := {
  url : string;
  output : string;
  full_page : bool;
  viewport_width : Z;
  viewport_height : Z
}.

Record Env := {
  installed : bool;
  launch : Completion unit;
  new_context : Completion unit;
  new_page : Completion unit;
  goto : Completion unit;
  screenshot : Completion unit;
  context_close : Completion unit;
  browser_close : Completion unit
}.

(** How [parser.parse_args()] ends.  It returns the namespace; or, given
    [-h] or [--help], argparse prints the help to stdout and calls
    [sys.exit(0)]; or it refuses the command line (a positional argument is
    missing, an option is unknown, a width or a height is no integer),
    prints the usage and then the error to stderr and calls
    [sys.exit(2)]. *)
Inductive Parse :=
| Namespace (args : Args)
| Help (text : string)
| Refused (usage error : string).

(** How [main()] ends: it returns a status, an exception leaves it, or
    [SystemExit(code)] does. *)
Inductive End :=
| Returns (status : Z)
| Raises (e : Exn)
| Exits (code : Z).

Definition ended (r : Cmd Z) : list Event * End :=
  (fst r,
   match snd r with
   | Returned status => Returns status
   | Raised e => Raises e
   end).

Definition main (parsed : Parse) (env : Env) : list Event * End :=
  match parsed with
  | Help text => ([Stdout (Line text)], Exits 0)
  | Refused usage error =>
      ([Stderr (Line usage); Stderr (Line error)], Exits 2)
  | Namespace args =>
      ended
        (if installed env then
           bind
             (with_playwright
                (bind (call Launch (launch env)) (fun _ =>
                 try_finally
                   (bind (call (NewContext (viewport_width args)
                                           (viewport_height args))
                               (new_context env)) (fun _ =>
                    bind (call NewPage (new_page env)) (fun _ =>
                    bind (call (Goto (url args) "networkidle" 30000)
                               (goto env)) (fun _ =>
                    bind (call (Screenshot (output args) (full_page args))
                               (screenshot env)) (fun _ =>
                    call ContextClose (context_close env))))))
                   (call BrowserClose (browser_close env)))))
             (fun _ => ret 0)
         else
           bind (say (Stderr (Line "playwright not installed")))
                (fun _ => ret 1))
  end.

(** The exit status of [sys.exit(main())]: the status returned, the code of
    [SystemExit], or 1 when another exception leaves [main]. *)
Definition exit_status (r : list Event * End) : Z :=
  match snd r with
  | Returns status => status
  | Raises _ => 1
  | Exits code => code
  end.

End TakeScreenshot.

(** ** Sample inputs for the scripts *)

(** A stand-in for [int] on the sample command lines: decimal numerals with
    an optional sign. *)
Definition sample_int (s : string) : option Z :=
  option_map Z.of_int (DecimalString.NilZero.int_of_string s).

Definition sample_argv : list string :=
  ["get_element_at_point.py"; "http://localhost:5173"; "10"; "20"].

(** The same with a width that parses and a height that does not. *)
Definition sample_argv_viewport : list string :=
  sample_argv ++ ["800"; "tall"].

(** A page that loads and has no element at the point. *)
Definition sample_page : GetElementAtPoint.Env :=
  {| GetElementAtPoint.installed := true;
     GetElementAtPoint.launch := Returned tt;
     GetElementAtPoint.new_context := Returned tt;
     GetElementAtPoint.new_page := Returned tt;
     GetElementAtPoint.goto := Returned tt;
     GetElementAtPoint.evaluate := Returned None;
     GetElementAtPoint.context_close := Returned tt;
     GetElementAtPoint.browser_close := Returned tt |}.

Definition sample_shot_args : TakeScreenshot.Args :=
  {| TakeScreenshot.url := "http://localhost:5173";
     TakeScreenshot.output := "/tmp/shot.png";
     TakeScreenshot.full_page := false;
     TakeScreenshot.viewport_width := 1280;
     TakeScreenshot.viewport_height := 720 |}.

Definition sample_shot : TakeScreenshot.Env :=
  {| TakeScreenshot.installed := true;
     TakeScreenshot.launch := Returned tt;
     TakeScreenshot.new_context := Returned tt;
     TakeScreenshot.new_page := Returned tt;
     TakeScreenshot.goto := Returned tt;
     TakeScreenshot.screenshot := Returned tt;
     TakeScreenshot.context_close := Returned tt;
     TakeScreenshot.browser_close := Returned tt |}.

(** A button between a [div] and two other buttons, rendered by a component
    [SaveButton]. *)
Definition sample_node (tag : string) : ElementScript.Node :=
  {| ElementScript.id := EmptyString;
     ElementScript.tagName := tag;
     ElementScript.className := Some "btn primary" |}.

Definition sample_level : ElementScript.Level :=
  {| ElementScript.node := sample_node "BUTTON";
     ElementScript.siblings :=
       Some ([sample_node "DIV"; sample_node "BUTTON"],
             [sample_node "BUTTON"]) |}.

Definition sample_target : ElementScript.Target :=
  {| ElementScript.element := sample_node "BUTTON";
     ElementScript.chain := [sample_level];
     ElementScript.fibers :=
       Some [ {| ElementScript.fiber_type := ElementScript.TypeString "button";
                 ElementScript.memoizedProps :=
                   Some [("onClick", ElementScript.JsFunction)] |};
              {| ElementScript.fiber_type :=
                   ElementScript.TypeFunction EmptyString "SaveButton";
                 ElementScript.memoizedProps :=
                   Some [("children", ElementScript.JsString "Save");
                         ("onSave", ElementScript.JsFunction);
                         ("style", ElementScript.JsObject);
                         ("label", ElementScript.JsString "Save");
                         ("disabled", ElementScript.JsBoolean false)] |} ];
     ElementScript.innerText := "Save";
     ElementScript.rect :=
       {| ElementScript.x := 8; ElementScript.y := 8;
          ElementScript.width := 64; ElementScript.height := 24 |} |}.

(** * The streamer, continued *)

Section Streamer.

(** [hashlib.md5(b).hexdigest()] and [base64.b64encode(b).decode("ascii")]:
    library functions of the bytes alone. *)
Variable md5_hexdigest : list Byte.byte -> string.
Variable b64encode : list Byte.byte -> string.

(** [hashlib.md5(screenshot_bytes).hexdigest()[:16]]. *)
Definition frame_hash_of (screenshot_bytes : list Byte.byte) : string :=
  substring 0 16 (md5_hexdigest screenshot_bytes).

(** [frame_hash == self.last_frame_hash], the right side being
    [str | None]. *)
Definition hash_eq (frame_hash : string) (last : option string) : bool :=
  match last with
  | Some h => String.eqb frame_hash h
  | None => false
  end.

(** ** [ScreenshotStreamer._capture_and_send] *)
Definition _capture_and_send (env : CycleEnv) : M unit :=
  self <- get_self ;;
  match page self with
  | None => ret tt
  | Some _ =>
      captured <-
        try_except
          (emit (Screenshot (quality (config self))) ;;
           c <- await (shot env) ;;
           screenshot_bytes <- complete c ;;
           ret (Some screenshot_bytes))
          (fun e => print (LogScreenshotFailed e) ;; ret None) ;;
      match captured with
      | None => ret tt
      | Some screenshot_bytes =>
          let frame_hash := frame_hash_of screenshot_bytes in
          self <- get_self ;;
          if hash_eq frame_hash (last_frame_hash self) then ret tt
          else
            set_self (set_last_frame_hash (Some frame_hash)) ;;
            set_self (fun s => set_frame_count (frame_count s + 1) s) ;;
            let frame_data := b64encode screenshot_bytes in
            _send_frame (attempts env) (stamp env) frame_data frame_hash
      end
  end.

(** The loop of the streamer calls [self._capture_and_send()]. *)
Definition _capture_loop : list CycleEnv -> M unit :=
  capture_loop_of _capture_and_send.

(** ** [ScreenshotStreamer.start]

    The block under [async with] yields [true] when it executed the
    [return] of the navigation handler. *)
Definition start (env : StartEnv) : M unit :=
  self <- get_self ;;
  print LogStarting ;;
  print (LogTargetUrl (target_url (config self))) ;;
  print (LogInterval (interval (config self))) ;;
  set_self (set_running true) ;;
  emit OpenClient ;;
  set_self (set_http_client (Some Open)) ;;
  available <- _wait_for_target 60 (t0 env) (probes env) ;;
  if negb available then
    print LogNeverAvailable ;;
    ret tt
  else
    returned <-
      async_with_playwright
        (emit Launch ;;
         c <- await (launch env) ;;
         complete c ;;
         set_self (set_browser (Some Open)) ;;
         emit (NewPage (viewport_width (config self))
                       (viewport_height (config self))) ;;
         c <- await (new_page env) ;;
         complete c ;;
         set_self (set_page (Some tt)) ;;
         navigated <-
           try_except
             (emit (Goto (target_url (config self))) ;;
              c <- await (goto env) ;;
              complete c ;;
              print (LogNavigated (target_url (config self))) ;;
              ret true)
             (fun e => print (LogNavigateFailed e) ;; ret false) ;;
         if navigated : bool then
           _capture_loop (cycles env) ;;
           ret false
         else ret true) ;;
    if returned : bool then ret tt
    else
      self <- get_self ;;
      match _http_client self with
      | Some _ =>
          emit CloseClient ;;
          await (aclose env) ;;
          set_self (set_http_client (Some Closed))
      | None => ret tt
      end.

(** ** [main] *)

(** The parsed command line. *)
Record Args := {
  arg_target_url : string;
  arg_control_plane_url : string;
  arg_session_id : string;
  arg_auth_token : string;
  arg_interval : Q;
  arg_width : Z;
  arg_height : Z;
  arg_quality : Z
}.

(** [StreamerConfig(...)] as [main] builds it: [max_retries] and
    [retry_delay] keep their defaults. *)
Definition config_of_args (args : Args) : StreamerConfig :=
  mkStreamerConfig (arg_target_url args) (arg_control_plane_url args)
    (arg_session_id args) (arg_auth_token args) (arg_interval args)
    (arg_width args) (arg_height args) (arg_quality args).

Definition main (args : Args) (env : StartEnv) : Run unit :=
  let config := config_of_args args in
  let streamer := mkScreenshotStreamer config in
  start env streamer.

(** The exit status of [asyncio.run(main())] run as a script: the
    interpreter exits with 0 when the script runs to its end and with 1 on
    an uncaught exception; nothing in the module calls [sys.exit]. *)
Definition exit_status (r : Run unit) : option Z :=
  match outcome r with
  | Ok _ => Some 0
  | Raise _ => Some 1
  | Pending => None
  end.

(** ** Observations on runs and traces *)

(** The POSTs of a trace, in order: the body sent and how it completed. *)
Definition post_events (tr : list Event) : list (Payload * Completion Z) :=
  flat_map (fun e => match e with
                     | Post _ body _ r => [(body, r)]
                     | _ => []
                     end) tr.

Definition frame_numbers (tr : list Event) : list Z :=
  map (fun p => frameNumber (fst p)) (post_events tr).

(** The probes of a trace and how they completed. *)
Definition get_events (tr : list Event) : list (Completion Z) :=
  flat_map (fun e => match e with Get _ r => [r] | _ => [] end) tr.

(** [response.status_code == 200]: the attempt delivered the frame. *)
Definition delivered (r : Completion Z) : bool :=
  match r with
  | Returned status_code => status_code =? 200
  | Raised _ => false
  end.

(** [response.status_code < 500]: the probe found the target. *)
Definition available (r : Completion Z) : bool :=
  match r with
  | Returned status_code => status_code <? 500
  | Raised _ => false
  end.

Definition is_post (e : Event) : bool :=
  match e with Post _ _ _ _ => true | _ => false end.

Definition is_get (e : Event) : bool :=
  match e with Get _ _ => true | _ => false end.

(** For each request of the trace, the sleeps since the request before it
    ([since]: those already seen). *)
Fixpoint gaps_after (is_request : Event -> bool) (since : list Q)
    (tr : list Event) : list (list Q) :=
  match tr with
  | [] => []
  | e :: tr' =>
      if is_request e then rev since :: gaps_after is_request [] tr'
      else match e with
           | Sleep d => gaps_after is_request (d :: since) tr'
           | _ => gaps_after is_request since tr'
           end
  end.

(** The sleeps between every two consecutive requests of a trace. *)
Definition gaps_between (is_request : Event -> bool) (tr : list Event)
    : list (list Q) :=
  tl (gaps_after is_request [] tr).

(** No probe is issued after [stop()] has run. *)
Fixpoint quiet_after_stop (tr : list Event) : Prop :=
  match tr with
  | [] => True
  | Print LogStopping :: tr' => get_events tr' = []
  | _ :: tr' => quiet_after_stop tr'
  end.

(** [1; 2; ...; n] from [first]. *)
Definition zseq (first : Z) (n : nat) : list Z :=
  map (fun i => first + Z.of_nat i) (seq 0 n).

(** The clock test of [_wait_for_target] for one iteration. *)
Definition in_budget (timeout start : Q) (env : ProbeEnv) : bool :=
  Qlt_bool (clock env - start) timeout.

(** The effect of [stop()] on the object and on the trace. *)
Definition stopped (s : ScreenshotStreamer) : ScreenshotStreamer :=
  match browser s with
  | Some _ => set_browser (Some Closed) (set_running false s)
  | None => set_running false s
  end.

Definition stop_events (s : ScreenshotStreamer) : list Event :=
  match browser s with
  | Some _ => [Print LogStopping; CloseBrowser]
  | None => [Print LogStopping]
  end.

(** The same at a suspension point. *)
Definition interrupted {A} (w : Await A) (s : ScreenshotStreamer)
    : ScreenshotStreamer :=
  if stop_requested w then stopped s else s.

Definition interruption {A} (w : Await A) (s : ScreenshotStreamer)
    : list Event :=
  if stop_requested w then stop_events s else [].

(** The fields no coroutine but [_capture_and_send] writes. *)
Definition keeps (s s' : ScreenshotStreamer) : Prop :=
  config s' = config s /\ page s' = page s /\
  frame_count s' = frame_count s /\
  last_frame_hash s' = last_frame_hash s /\
  _http_client s' = _http_client s.

(** Postconditions, and a run that satisfies one. *)
Definition Spec (A : Type) : Type :=
  Outcome A -> ScreenshotStreamer -> list Event -> Prop.

Definition runs {A} (m : M A) (s : ScreenshotStreamer) (Q : Spec A) : Prop :=
  Q (outcome (m s)) (final (m s)) (trace (m s)).

(** The attempts [_send_frame] makes out of those of the [for] loop: up to
    and including the first one that delivers. *)
Fixpoint attempted (env : Z -> AttemptEnv) (todo : list Z) : list Z :=
  match todo with
  | [] => []
  | attempt :: later =>
      if delivered (result (post (env attempt))) then [attempt]
      else attempt :: attempted env later
  end.

(** The bytes of the cycle when it reaches the lines after the duplicate
    test: a page, a capture that returned, a fingerprint that differs. *)
Definition new_frame (s : ScreenshotStreamer) (env : CycleEnv)
    : option (list Byte.byte) :=
  match page s, result (shot env) with
  | Some _, Returned b =>
      if hash_eq (frame_hash_of b) (last_frame_hash s) then None else Some b
  | _, _ => None
  end.

(** The POSTs of a cycle that sends [b] as frame [number]. *)
Definition frame_posts (s : ScreenshotStreamer) (env : CycleEnv)
    (number : Z) (b : list Byte.byte) : list (Payload * Completion Z) :=
  match _http_client s with
  | None => []
  | Some _ =>
      map (fun attempt =>
             (frame_payload (config s) number (stamp env) (b64encode b)
                            (frame_hash_of b),
              result (post (attempts env attempt))))
          (attempted (attempts env) (range (max_retries (config s))))
  end.

(** The running flag is only ever cleared by [stop()], which logs. *)
Definition stop_or_same (s s' : ScreenshotStreamer) (t : list Event) : Prop :=
  In (Print LogStopping) t \/ running s' = running s.

(** [r] is the run [r'] preceded by the events [tr]. *)
Definition continues_as {A} (r : Run A) (tr : list Event) (r' : Run A)
    : Prop :=
  outcome r = outcome r' /\ final r = final r' /\ trace r = tr ++ trace r'.

(** The object after the first lines of [start]. *)
Definition started (s : ScreenshotStreamer) : ScreenshotStreamer :=
  set_http_client (Some Open) (set_running true s).

(** The events [_wait_for_target] can produce, [stop()] included. *)
Definition probe_event (e : Event) : Prop :=
  match e with
  | Print _ | Get _ _ | Sleep _ | CloseBrowser => True
  | _ => False
  end.

(** ** Sample inputs *)

Definition sample_args : Args :=
  {| arg_target_url := "http://localhost:5173";
     arg_control_plane_url := "https://control.example";
     arg_session_id := "abc123";
     arg_auth_token := "xyz789";
     arg_interval := 2;
     arg_width := 1280;
     arg_height := 720;
     arg_quality := 80 |}.

Definition sample_config : StreamerConfig := config_of_args sample_args.

(** The sample configuration with another bound on the attempts. *)
Definition with_max_retries (n : Z) (cfg : StreamerConfig) : StreamerConfig :=
  {| target_url := target_url cfg;
     control_plane_url := control_plane_url cfg;
     session_id := session_id cfg; auth_token := auth_token cfg;
     interval := interval cfg; viewport_width := viewport_width cfg;
     viewport_height := viewport_height cfg; quality := quality cfg;
     max_retries := n; retry_delay := retry_delay cfg |}.

(** The object as [start] hands it to [_capture_loop]. *)
Definition streaming (cfg : StreamerConfig) : ScreenshotStreamer :=
  set_page (Some tt) (set_browser (Some Open)
    (started (mkScreenshotStreamer cfg))).

(** A control plane that answers every attempt the same way. *)
Definition always (r : Completion Z) : Z -> AttemptEnv :=
  fun _ => {| post := resume r; backoff := resume tt |}.

(** A control plane that answers the attempts with the statuses of a list,
    then with 200. *)
Definition statuses (l : list Z) : Z -> AttemptEnv :=
  fun attempt =>
    {| post := resume (Returned (nth (Z.to_nat attempt) l 200));
       backoff := resume tt |}.

(** A cycle that captures [b]. *)
Definition capture (b : list Byte.byte) (answers : Z -> AttemptEnv)
    : CycleEnv :=
  {| shot := resume (Returned b); stamp := 0; attempts := answers;
     pause := resume tt |}.

(** The same, with [stop()] running during the sleep that ends it. *)
Definition last_capture (b : list Byte.byte) (answers : Z -> AttemptEnv)
    : CycleEnv :=
  {| shot := resume (Returned b); stamp := 0; attempts := answers;
     pause := resume_stopped tt |}.

Definition frame_a : list Byte.byte := [Byte.x41].
Definition frame_b : list Byte.byte := [Byte.x42].
Definition frame_c : list Byte.byte := [Byte.x43].

(** A probe iteration at clock [t] answered by [r]. *)
Definition probe_at (t : Q) (r : Completion Z) : ProbeEnv :=
  {| clock := t; probe := resume r; nap := resume tt |}.

(** A run whose target answers the first probe. *)
Definition run_of (cs : list CycleEnv) : StartEnv :=
  {| t0 := 0; probes := [probe_at 0 (Returned 200)];
     launch := resume (Returned tt); new_page := resume (Returned tt);
     goto := resume (Returned tt); cycles := cs; aclose := resume tt |}.

(** A run whose target answers 503 until the budget is spent. *)
Definition run_probe_timeout : StartEnv :=
  {| t0 := 0;
     probes := [probe_at 0 (Returned 503); probe_at 30 (Returned 503);
                probe_at 61 (Returned 503)];
     launch := resume (Returned tt); new_page := resume (Returned tt);
     goto := resume (Returned tt); cycles := []; aclose := resume tt |}.

(** A run whose navigation fails. *)
Definition run_navigation_failure : StartEnv :=
  {| t0 := 0; probes := [probe_at 0 (Returned 200)];
     launch := resume (Returned tt); new_page := resume (Returned tt);
     goto := resume (Raised (Exception "net::ERR_CONNECTION_REFUSED"));
     cycles := []; aclose := resume tt |}.


(** Stand-ins for the two library functions, for the sample runs. *)
Definition sample_digest (b : list Byte.byte) : string :=
  string_of_list_byte b.
Definition sample_encode (b : list Byte.byte) : string :=
  string_of_list_byte b.

(** The sleeps of a trace, in order. *)
Definition sleeps (tr : list Event) : list Q :=
  flat_map (fun e => match e with Sleep d => [d] | _ => [] end) tr.

(** What [_send_frame] puts on the wire for the configuration [cfg]: the
    endpoint, the bearer header, and a body built from some captured
    bytes. *)
Definition on_the_wire (cfg : StreamerConfig) (e : Event) : Prop :=
  match e with
  | Post endpoint body authorization _ =>
      endpoint = stream_frame_endpoint cfg
      /\ authorization = bearer cfg
      /\ exists number now b,
           body = frame_payload cfg number now (b64encode b)
                                (frame_hash_of b)
  | _ => True
  end.

(** The events of a run that need a page: captures and POSTs. *)
Definition is_streaming (e : Event) : bool :=
  match e with
  | Screenshot _ | Post _ _ _ _ => true
  | _ => false
  end.

(** Every POST of a trace went to [endpoint] with the header
    [authorization] and the body [body]. *)
Definition posts_are (endpoint authorization : string) (body : Payload)
    (e : Event) : Prop :=
  match e with
  | Post endpoint' body' authorization' _ =>
      endpoint' = endpoint /\ authorization' = authorization /\ body' = body
  | _ => True
  end.


(** The trace [l] ends with the events [t]. *)
Definition ends_with (t l : list Event) : Prop :=
  exists before, l = before ++ t.

(** An iteration of the probing loop that goes on to the next one: entered
    within the budget, its probe met a transport error or a status of 500
    or above, and [stop()] ran neither during the probe nor during the
    sleep. *)
Definition retried (timeout start : Q) (env : ProbeEnv) : Prop :=
  in_budget timeout start env = true
  /\ available (result (probe env)) = false
  /\ stop_requested (probe env) = false
  /\ stop_requested (nap env) = false.

(** ** Reasoning rules for runs *)

Arguments _send_frame : simpl never.
Arguments _capture_and_send : simpl never.
Arguments _capture_loop : simpl never.
Arguments _wait_for_target : simpl never.
Arguments start : simpl never.

Lemma runs_conseq {A} (m : M A) s (P Q : Spec A) :
  runs m s P -> (forall o s' t, P o s' t -> Q o s' t) -> runs m s Q.
Proof. unfold runs; auto. Qed.

Lemma runs_ret {A} (a : A) s (Q : Spec A) : Q (Ok a) s [] -> runs (ret a) s Q.
Proof. exact (fun H => H). Qed.

Lemma runs_raise {A} e s (Q : Spec A) :
  Q (Raise e) s [] -> runs (raise e) s Q.
Proof. exact (fun H => H). Qed.

Lemma runs_pending {A} s (Q : Spec A) : Q Pending s [] -> runs pending s Q.
Proof. exact (fun H => H). Qed.

Lemma runs_get_self s (Q : Spec ScreenshotStreamer) :
  Q (Ok s) s [] -> runs get_self s Q.
Proof. exact (fun H => H). Qed.

Lemma runs_set_self f s (Q : Spec unit) :
  Q (Ok tt) (f s) [] -> runs (set_self f) s Q.
Proof. exact (fun H => H). Qed.

Lemma runs_emit e s (Q : Spec unit) : Q (Ok tt) s [e] -> runs (emit e) s Q.
Proof. exact (fun H => H). Qed.

Lemma runs_print m s (Q : Spec unit) :
  Q (Ok tt) s [Print m] -> runs (print m) s Q.
Proof. exact (fun H => H). Qed.

Lemma runs_bind {A B} (m : M A) (k : A -> M B) s (Q : Spec B) :
  runs m s (fun o s1 t1 =>
    match o with
    | Ok a => runs (k a) s1 (fun o2 s2 t2 => Q o2 s2 (t1 ++ t2))
    | Raise e => Q (Raise e) s1 t1
    | Pending => Q Pending s1 t1
    end) ->
  runs (bind m k) s Q.
Proof. unfold runs, bind. destruct (outcome (m s)); auto. Qed.

Lemma runs_try_except {A} (m : M A) (h : Exn -> M A) s (Q : Spec A) :
  runs m s (fun o s1 t1 =>
    match o with
    | Raise e => runs (h e) s1 (fun o2 s2 t2 => Q o2 s2 (t1 ++ t2))
    | _ => Q o s1 t1
    end) ->
  runs (try_except m h) s Q.
Proof.
  unfold runs, try_except.
  destruct (outcome (m s)) eqn:E; simpl; rewrite ?E; auto.
Qed.

Lemma runs_stop s (Q : Spec unit) :
  Q (Ok tt) (stopped s) (stop_events s) -> runs stop s Q.
Proof.
  unfold runs, stop, stopped, stop_events, bind, print, emit, set_self,
    get_self, ret.
  simpl. destruct (browser s); simpl; auto.
Qed.

Lemma runs_await {A} (w : Await A) s (Q : Spec A) :
  Q (Ok (result w)) (interrupted w s) (interruption w s) ->
  runs (await w) s Q.
Proof.
  unfold await, when, interrupted, interruption. intros H.
  apply runs_bind. destruct (stop_requested w).
  - apply runs_stop, runs_ret. rewrite app_nil_r. exact H.
  - apply runs_ret, runs_ret. exact H.
Qed.

Lemma runs_complete {A} (c : Completion A) s (Q : Spec A) :
  match c with
  | Returned a => Q (Ok a) s []
  | Raised e => Q (Raise e) s []
  end ->
  runs (complete c) s Q.
Proof. destruct c; auto. Qed.

Lemma runs_sleep d w s (Q : Spec unit) :
  Q (Ok tt) (interrupted w s) (Sleep d :: interruption w s) ->
  runs (sleep d w) s Q.
Proof.
  intros H. unfold sleep. apply runs_bind, runs_emit, runs_await.
  destruct (result w). exact H.
Qed.

(** One step of symbolic execution. *)
Ltac step :=
  cbv beta iota;
  lazymatch goal with
  | |- runs (bind _ _) _ _ => apply runs_bind
  | |- runs (try_except _ _) _ _ => apply runs_try_except
  | |- runs (ret _) _ _ => apply runs_ret
  | |- runs (raise _) _ _ => apply runs_raise
  | |- runs pending _ _ => apply runs_pending
  | |- runs get_self _ _ => apply runs_get_self
  | |- runs (set_self _) _ _ => apply runs_set_self
  | |- runs (emit _) _ _ => apply runs_emit
  | |- runs (print _) _ _ => apply runs_print
  | |- runs stop _ _ => apply runs_stop
  | |- runs (await _) _ _ => apply runs_await
  | |- runs (complete _) _ _ => apply runs_complete
  | |- runs (sleep _ _) _ _ => apply runs_sleep
  | |- runs (when ?b _) _ _ => unfold when at 1
  | |- runs (if ?b then _ else _) _ _ => destruct b eqn:?
  | |- runs (match ?x with _ => _ end) _ _ => destruct x eqn:?
  | |- match ?x with _ => _ end => destruct x eqn:?
  end.

(** ** What an interruption leaves alone *)

Lemma keeps_refl s : keeps s s.
Proof. unfold keeps; auto. Qed.

Lemma keeps_trans s1 s2 s3 : keeps s1 s2 -> keeps s2 s3 -> keeps s1 s3.
Proof. unfold keeps; intuition congruence. Qed.

Lemma keeps_stopped s : keeps s (stopped s).
Proof. unfold keeps, stopped. destruct (browser s); simpl; auto. Qed.

Lemma keeps_interrupted {A} (w : Await A) s : keeps s (interrupted w s).
Proof.
  unfold interrupted.
  destruct (stop_requested w); auto using keeps_refl, keeps_stopped.
Qed.

Lemma config_interrupted {A} (w : Await A) s :
  config (interrupted w s) = config s.
Proof. apply (keeps_interrupted w s). Qed.

Lemma page_interrupted {A} (w : Await A) s :
  page (interrupted w s) = page s.
Proof. apply (keeps_interrupted w s). Qed.

Lemma frame_count_interrupted {A} (w : Await A) s :
  frame_count (interrupted w s) = frame_count s.
Proof. apply (keeps_interrupted w s). Qed.

Lemma last_frame_hash_interrupted {A} (w : Await A) s :
  last_frame_hash (interrupted w s) = last_frame_hash s.
Proof. apply (keeps_interrupted w s). Qed.

Lemma http_client_interrupted {A} (w : Await A) s :
  _http_client (interrupted w s) = _http_client s.
Proof. apply (keeps_interrupted w s). Qed.

Lemma running_interrupted {A} (w : Await A) s :
  running (interrupted w s) = running s && negb (stop_requested w).
Proof.
  unfold interrupted, stopped.
  destruct (stop_requested w), (browser s), (running s); reflexivity.
Qed.

Lemma post_events_app t1 t2 :
  post_events (t1 ++ t2) = post_events t1 ++ post_events t2.
Proof. apply flat_map_app. Qed.

Lemma get_events_app t1 t2 :
  get_events (t1 ++ t2) = get_events t1 ++ get_events t2.
Proof. apply flat_map_app. Qed.

Lemma post_events_interruption {A} (w : Await A) s :
  post_events (interruption w s) = [].
Proof.
  unfold interruption, stop_events.
  destruct (stop_requested w), (browser s); reflexivity.
Qed.

Lemma get_events_interruption {A} (w : Await A) s :
  get_events (interruption w s) = [].
Proof.
  unfold interruption, stop_events.
  destruct (stop_requested w), (browser s); reflexivity.
Qed.

Lemma sleeps_app t1 t2 : sleeps (t1 ++ t2) = sleeps t1 ++ sleeps t2.
Proof. apply flat_map_app. Qed.

Lemma sleeps_interruption {A} (w : Await A) s :
  sleeps (interruption w s) = [].
Proof.
  unfold interruption, stop_events.
  destruct (stop_requested w), (browser s); reflexivity.
Qed.

Lemma stop_or_same_refl s : stop_or_same s s [].
Proof. right; reflexivity. Qed.

Lemma stop_or_same_interrupted {A} (w : Await A) s :
  stop_or_same s (interrupted w s) (interruption w s).
Proof.
  unfold stop_or_same, interrupted, interruption, stop_events.
  destruct (stop_requested w); [left | right; reflexivity].
  destruct (browser s); simpl; auto.
Qed.

Lemma stop_or_same_trans s1 s2 s3 t1 t2 :
  stop_or_same s1 s2 t1 -> stop_or_same s2 s3 t2 ->
  stop_or_same s1 s3 (t1 ++ t2).
Proof.
  unfold stop_or_same. rewrite in_app_iff. intuition congruence.
Qed.

Lemma stop_or_same_cons s1 s2 e t :
  stop_or_same s1 s2 t -> stop_or_same s1 s2 (e :: t).
Proof. unfold stop_or_same. simpl. tauto. Qed.

Create Rewrite HintDb streamer.
#[local] Hint Rewrite @config_interrupted @page_interrupted
  @frame_count_interrupted @last_frame_hash_interrupted
  @http_client_interrupted post_events_app get_events_app
  @post_events_interruption @get_events_interruption
  app_nil_r : streamer.

Ltac tidy := repeat progress (simpl; autorewrite with streamer).

Ltac finish :=
  tidy; autorewrite with streamer in *;
  repeat match goal with
         | H : ?x = _ |- context [?x] => rewrite H
         end;
  simpl; auto 10.

(** ** [_send_frame] *)

Ltac solve_stop :=
  unfold stop_or_same, interrupted, interruption, stop_events, stopped;
  repeat match goal with
         | |- context [stop_requested ?w] => destruct (stop_requested w)
         end;
  repeat match goal with
         | |- context [browser ?s] => destruct (browser s)
         end;
  simpl; rewrite ?in_app_iff; simpl; tauto.

Lemma send_attempt_spec env ep body attempt s :
  runs (send_attempt env ep body attempt) s (fun o s' t =>
    o = Ok (delivered (result (post (env attempt))))
    /\ keeps s s'
    /\ stop_or_same s s' t
    /\ post_events t = [(body, result (post (env attempt)))]).
Proof.
  unfold send_attempt, http_post, keeps.
  repeat step; tidy; repeat split; auto; try congruence; try solve_stop.
  all: rewrite ?Heqc; simpl; congruence.
Qed.

Lemma send_attempts_spec env ep body todo : forall s,
  runs (send_attempts env ep body todo) s (fun o s' t =>
    o = Ok tt
    /\ keeps s s'
    /\ stop_or_same s s' t
    /\ post_events t =
       map (fun a => (body, result (post (env a)))) (attempted env todo)).
Proof.
  induction todo as [|attempt later IH]; intros s; simpl.
  - step. auto using keeps_refl, stop_or_same_refl.
  - step.
    eapply runs_conseq; [apply send_attempt_spec|].
    intros o s1 t1 (-> & K1 & S1 & P1).
    destruct (delivered (result (post (env attempt)))).
    + step. tidy. rewrite P1. auto.
    + eapply runs_conseq; [apply IH|].
      intros o s2 t2 (-> & K2 & S2 & P2). tidy. rewrite P1, P2.
      eauto 6 using keeps_trans, stop_or_same_trans.
Qed.

Lemma send_frame_spec env now data h s :
  runs (_send_frame env now data h) s (fun o s' t =>
    o = Ok tt
    /\ keeps s s'
    /\ stop_or_same s s' t
    /\ post_events t =
       match _http_client s with
       | None => []
       | Some _ =>
           map (fun a => (frame_payload (config s) (frame_count s) now data h,
                          result (post (env a))))
               (attempted env (range (max_retries (config s))))
       end).
Proof.
  unfold _send_frame. step. step. step.
  - eapply runs_conseq; [apply send_attempts_spec|].
    intros o s1 t1 (-> & K1 & S1 & P1). tidy. auto.
  - step. auto using keeps_refl, stop_or_same_refl.
Qed.

Lemma attempted_all_failed env todo :
  Forall (fun a => delivered (result (post (env a))) = false) todo ->
  attempted env todo = todo.
Proof.
  induction 1 as [|a l Ha _ IH]; simpl; [reflexivity|].
  rewrite Ha, IH. reflexivity.
Qed.

Lemma length_range n : List.length (range n) = Z.to_nat n.
Proof. unfold range. rewrite length_map, length_seq. reflexivity. Qed.

Lemma in_range a n : In a (range n) <-> 0 <= a < n.
Proof.
  unfold range. rewrite in_map_iff. split.
  - intros (i & <- & Hi). apply in_seq in Hi. lia.
  - intros H. exists (Z.to_nat a). split; [lia|]. apply in_seq. lia.
Qed.

(** ** [_capture_and_send] *)

Lemma capture_and_send_spec env s :
  runs (_capture_and_send env) s (fun o s' t =>
    o = Ok tt
    /\ config s' = config s /\ page s' = page s
    /\ _http_client s' = _http_client s
    /\ stop_or_same s s' t
    /\ match new_frame s env with
       | None =>
           frame_count s' = frame_count s
           /\ last_frame_hash s' = last_frame_hash s
           /\ post_events t = []
       | Some b =>
           frame_count s' = frame_count s + 1
           /\ last_frame_hash s' = Some (frame_hash_of b)
           /\ post_events t = frame_posts s env (frame_count s + 1) b
       end).
Proof.
  unfold _capture_and_send, new_frame, frame_posts.
  repeat step; finish; try (repeat split; auto; solve_stop).
  eapply runs_conseq; [apply send_frame_spec|].
  intros o s1 t1 (-> & (K1 & K2 & K3 & K4 & K5) & S1 & P1).
  simpl in *. autorewrite with streamer in *.
  rewrite K1, K2, K3, K4, K5, P1. simpl. repeat split; auto.
  clear - S1. revert S1. solve_stop.
Qed.

(** ** [_capture_loop] *)

Lemma capture_loop_of_cons cycle env rest :
  capture_loop_of cycle (env :: rest) =
  (self <- get_self ;;
   if running self then
     try_except (cycle env) (fun e => print (LogCaptureError e)) ;;
     self <- get_self ;;
     sleep (interval (config self)) (pause env) ;;
     capture_loop_of cycle rest
   else ret tt).
Proof. reflexivity. Qed.

Lemma capture_loop_of_nil cycle :
  capture_loop_of cycle [] =
  (self <- get_self ;; if running self then pending else ret tt).
Proof. reflexivity. Qed.

Lemma runs_here {A} (m : M A) s (Q : Spec A) :
  Q (outcome (m s)) (final (m s)) (trace (m s)) -> runs m s Q.
Proof. exact (fun H => H). Qed.

Lemma continues_as_runs {A} (m : M A) s tr (r' : Run A) :
  runs m s (fun o s' t =>
    o = outcome r' /\ s' = final r' /\ t = tr ++ trace r') ->
  continues_as (m s) tr r'.
Proof. exact (fun H => H). Qed.

(** The loop does nothing once the flag is cleared. *)
Lemma capture_loop_of_idle cycle envs s :
  running s = false ->
  outcome (capture_loop_of cycle envs s) = Ok tt
  /\ final (capture_loop_of cycle envs s) = s
  /\ trace (capture_loop_of cycle envs s) = [].
Proof.
  intros H.
  change (runs (capture_loop_of cycle envs) s
            (fun o s' t => o = Ok tt /\ s' = s /\ t = [])).
  destruct envs; [rewrite capture_loop_of_nil | rewrite capture_loop_of_cons];
    step; step; rewrite H; step; auto.
Qed.

(** An iteration whose cycle returns. *)
Lemma capture_loop_of_next cycle env rest s :
  running s = true ->
  outcome (cycle env s) = Ok tt ->
  let s1 := final (cycle env s) in
  continues_as (capture_loop_of cycle (env :: rest) s)
    (trace (cycle env s)
       ++ Sleep (interval (config s1)) :: interruption (pause env) s1)
    (capture_loop_of cycle rest (interrupted (pause env) s1)).
Proof.
  intros Hr Ho s1. apply continues_as_runs.
  rewrite capture_loop_of_cons. step. step. rewrite Hr.
  step. step. apply runs_here. rewrite Ho.
  step. step. step. step. apply runs_here.
  repeat split. subst s1. simpl. rewrite <- !app_assoc. reflexivity.
Qed.


(** The loop never raises, and it returns only with the flag cleared. *)
Lemma capture_loop_of_exit cycle envs : forall s,
  (forall e, outcome (capture_loop_of cycle envs s) <> Raise e)
  /\ (outcome (capture_loop_of cycle envs s) = Ok tt ->
      running (final (capture_loop_of cycle envs s)) = false).
Proof.
  induction envs as [|env rest IH]; intros s.
  - change (runs (capture_loop_of cycle []) s (fun o s' t =>
      (forall e, o <> Raise e) /\ (o = Ok tt -> running s' = false))).
    rewrite capture_loop_of_nil. repeat step; split; congruence.
  - change (runs (capture_loop_of cycle (env :: rest)) s (fun o s' t =>
      (forall e, o <> Raise e) /\ (o = Ok tt -> running s' = false))).
    rewrite capture_loop_of_cons. step. step. step.
    + step. step. apply runs_here.
      destruct (outcome (cycle env s)); repeat step;
        try (split; congruence); apply runs_here; apply IH.
    + step. split; congruence.
Qed.

Lemma capture_and_send_facts env s r :
  r = _capture_and_send env s ->
  outcome r = Ok tt
  /\ config (final r) = config s /\ page (final r) = page s
  /\ _http_client (final r) = _http_client s
  /\ stop_or_same s (final r) (trace r)
  /\ match new_frame s env with
     | None =>
         frame_count (final r) = frame_count s
         /\ last_frame_hash (final r) = last_frame_hash s
         /\ post_events (trace r) = []
     | Some b =>
         frame_count (final r) = frame_count s + 1
         /\ last_frame_hash (final r) = Some (frame_hash_of b)
         /\ post_events (trace r) = frame_posts s env (frame_count s + 1) b
     end.
Proof. intros ->. exact (capture_and_send_spec env s). Qed.

Lemma capture_loop_step env rest s r :
  running s = true ->
  r = _capture_and_send env s ->
  continues_as (_capture_loop (env :: rest) s)
    (trace r ++ Sleep (interval (config s))
             :: interruption (pause env) (final r))
    (_capture_loop rest (interrupted (pause env) (final r))).
Proof.
  intros Hr Er.
  destruct (capture_and_send_facts env s r Er) as (Ho & Hc & _).
  rewrite <- Hc. subst r.
  apply (capture_loop_of_next _capture_and_send env rest s Hr Ho).
Qed.

Lemma capture_loop_trace_nil s : trace (_capture_loop [] s) = [].
Proof.
  unfold _capture_loop.
  change (runs (capture_loop_of _capture_and_send []) s
            (fun _ _ t => t = [])).
  rewrite capture_loop_of_nil. repeat step; reflexivity.
Qed.

Lemma capture_loop_trace_idle envs s :
  running s = false -> trace (_capture_loop envs s) = [].
Proof. intros H. apply (capture_loop_of_idle _capture_and_send envs s H). Qed.

Lemma capture_loop_posts_cons env rest s r :
  running s = true ->
  r = _capture_and_send env s ->
  post_events (trace (_capture_loop (env :: rest) s)) =
  post_events (trace r)
    ++ post_events (trace (_capture_loop rest
                             (interrupted (pause env) (final r)))).
Proof.
  intros Hr Er.
  destruct (capture_loop_step env rest s r Hr Er) as (_ & _ & ->).
  tidy. reflexivity.
Qed.

(** Induction on the iterations of the loop that do run. *)
Lemma capture_loop_posts_ind
    (P : ScreenshotStreamer -> list (Payload * Completion Z) -> Prop) :
  (forall s, P s []) ->
  (forall env s r rest_posts,
      running s = true ->
      r = _capture_and_send env s ->
      P (interrupted (pause env) (final r)) rest_posts ->
      P s (post_events (trace r) ++ rest_posts)) ->
  forall envs s, P s (post_events (trace (_capture_loop envs s))).
Proof.
  intros Hnil Hcons. induction envs as [|env rest IH]; intros s.
  - rewrite capture_loop_trace_nil. apply Hnil.
  - destruct (running s) eqn:Hr.
    + rewrite (capture_loop_posts_cons env rest s _ Hr eq_refl).
      apply (Hcons env s _ _ Hr eq_refl), IH.
    + rewrite (capture_loop_trace_idle (env :: rest) s Hr). apply Hnil.
Qed.

Lemma range_nonpos n : n <= 0 -> range n = [].
Proof.
  intros H. unfold range. replace (Z.to_nat n) with 0%nat by lia. reflexivity.
Qed.

Lemma range_pos n : 0 < n -> exists later, range n = 0 :: later.
Proof.
  intros H. unfold range.
  destruct (Z.to_nat n) as [|k] eqn:E; [lia|]. simpl. eauto.
Qed.

Lemma zseq_S first n : zseq first (S n) = first :: zseq (first + 1) n.
Proof.
  unfold zseq. simpl. rewrite Z.add_0_r. f_equal.
  rewrite <- seq_shift, map_map. apply map_ext. intros i. lia.
Qed.

Lemma frame_posts_disabled s env number b :
  _http_client s = None \/ max_retries (config s) <= 0 ->
  frame_posts s env number b = [].
Proof.
  unfold frame_posts. intros [-> | H]; [reflexivity|].
  destruct (_http_client s); [|reflexivity].
  rewrite (range_nonpos _ H). reflexivity.
Qed.

Lemma frame_posts_numbers s env number b :
  Forall (fun p => frameNumber (fst p) = number)
         (frame_posts s env number b).
Proof.
  unfold frame_posts. destruct (_http_client s); [|constructor].
  apply Forall_map, Forall_forall. reflexivity.
Qed.

(** With no client, or with no attempt allowed, no POST is ever made. *)
Lemma capture_loop_disabled envs s :
  _http_client s = None \/ max_retries (config s) <= 0 ->
  post_events (trace (_capture_loop envs s)) = [].
Proof.
  revert s. revert envs.
  apply (capture_loop_posts_ind
           (fun s posts =>
              _http_client s = None \/ max_retries (config s) <= 0 ->
              posts = [])); [reflexivity|].
  intros env s r rest_posts Hr Er IH H.
  destruct (capture_and_send_facts env s r Er) as (_ & Hc & _ & Hh & _ & Hn).
  rewrite IH by (autorewrite with streamer; rewrite Hc, Hh; exact H).
  rewrite app_nil_r.
  destruct (new_frame s env); [|tauto].
  destruct Hn as (_ & _ & ->). apply frame_posts_disabled, H.
Qed.

(** Every POST of the loop carries a number above the counter it started
    from. *)
Lemma capture_loop_numbers_above envs s :
  Forall (fun p => frame_count s < frameNumber (fst p))
         (post_events (trace (_capture_loop envs s))).
Proof.
  revert s. revert envs.
  apply (capture_loop_posts_ind
           (fun s posts =>
              Forall (fun p => frame_count s < frameNumber (fst p)) posts));
    [constructor|].
  intros env s r rest_posts Hr Er IH.
  destruct (capture_and_send_facts env s r Er) as (_ & _ & _ & _ & _ & Hn).
  revert IH. autorewrite with streamer. intros IH.
  apply Forall_app. destruct (new_frame s env).
  - destruct Hn as (Hf & _ & ->). split.
    + eapply Forall_impl; [|apply frame_posts_numbers].
      simpl. intros p ->. lia.
    + eapply Forall_impl; [|exact IH]. simpl. intros p Hp. lia.
  - destruct Hn as (Hf & _ & ->). split; [constructor|].
    rewrite <- Hf. exact IH.
Qed.

(** When every POST delivers, the numbers sent are consecutive. *)
Lemma capture_loop_frame_numbers envs s :
  Forall (fun p => delivered (snd p) = true)
         (post_events (trace (_capture_loop envs s))) ->
  frame_numbers (trace (_capture_loop envs s)) =
  zseq (frame_count s + 1)
       (List.length (post_events (trace (_capture_loop envs s)))).
Proof.
  unfold frame_numbers.
  cut ((_http_client s = None \/ max_retries (config s) <= 0 ->
        post_events (trace (_capture_loop envs s)) = [])
       /\ (Forall (fun p => delivered (snd p) = true)
                  (post_events (trace (_capture_loop envs s))) ->
           map (fun p => frameNumber (fst p))
               (post_events (trace (_capture_loop envs s))) =
           zseq (frame_count s + 1)
                (List.length (post_events (trace (_capture_loop envs s))))));
    [tauto|].
  revert s. revert envs.
  apply (capture_loop_posts_ind
           (fun s posts =>
              (_http_client s = None \/ max_retries (config s) <= 0 ->
               posts = [])
              /\ (Forall (fun p => delivered (snd p) = true) posts ->
                  map (fun p => frameNumber (fst p)) posts =
                  zseq (frame_count s + 1) (List.length posts))));
    [split; reflexivity|].
  intros env s r rest_posts Hr Er (IH1 & IH2).
  destruct (capture_and_send_facts env s r Er) as (_ & Hc & _ & Hh & _ & Hn).
  revert IH1 IH2. autorewrite with streamer. rewrite Hc, Hh.
  intros IH1 IH2. split.
  - intros H. rewrite (IH1 H), app_nil_r.
    destruct (new_frame s env); [|tauto].
    destruct Hn as (_ & _ & ->). apply frame_posts_disabled, H.
  - intros Hall. apply Forall_app in Hall. destruct Hall as (Hpc & Hrest).
    rewrite map_app, length_app.
    destruct (new_frame s env) as [b|].
    + destruct Hn as (Hf & _ & Hp). rewrite Hf in IH2.
      destruct (_http_client s) as [c|] eqn:Hcl.
      * destruct (Z_le_gt_dec (max_retries (config s)) 0) as [Hm|Hm].
        -- rewrite Hp, frame_posts_disabled by auto.
           rewrite IH1 by auto. reflexivity.
        -- destruct (range_pos (max_retries (config s))) as (later & Hrg);
             [lia|].
           rewrite Hp in Hpc |- *. unfold frame_posts in Hpc |- *.
           rewrite Hcl, Hrg in Hpc |- *. simpl in Hpc |- *.
           destruct (delivered (result (post (attempts env 0)))) eqn:Hd.
           ++ simpl. rewrite zseq_S, IH2 by exact Hrest. reflexivity.
           ++ simpl in Hpc. inversion Hpc as [|? ? Hd' _]. simpl in Hd'.
              congruence.
      * rewrite Hp, frame_posts_disabled by auto.
        rewrite IH1 by auto. reflexivity.
    + destruct Hn as (Hf & _ & ->). rewrite Hf in IH2. simpl.
      apply IH2, Hrest.
Qed.

(** Cycles that capture the bytes whose fingerprint is stored send nothing
    and leave the counter alone. *)
Lemma capture_loop_duplicates b envs : forall s,
  last_frame_hash s = Some (frame_hash_of b) ->
  Forall (fun env => result (shot env) = Returned b) envs ->
  post_events (trace (_capture_loop envs s)) = []
  /\ frame_count (final (_capture_loop envs s)) = frame_count s
  /\ last_frame_hash (final (_capture_loop envs s)) = last_frame_hash s.
Proof.
  induction envs as [|env rest IH]; intros s Hl Hall.
  - rewrite capture_loop_trace_nil. split; [reflexivity|].
    unfold _capture_loop.
    change (runs (capture_loop_of _capture_and_send []) s (fun _ s' _ =>
              frame_count s' = frame_count s
              /\ last_frame_hash s' = last_frame_hash s)).
    rewrite capture_loop_of_nil. repeat step; auto.
  - destruct (running s) eqn:Hr.
    + inversion Hall as [|? ? Hb Hrest]; subst.
      remember (_capture_and_send env s) as r eqn:Er.
      destruct (capture_loop_step env rest s r Hr Er) as (_ & -> & ->).
      destruct (capture_and_send_facts env s r Er)
        as (_ & _ & _ & _ & _ & Hn).
      assert (Hnew : new_frame s env = None).
      { unfold new_frame. rewrite Hb, Hl. unfold hash_eq.
        rewrite String.eqb_refl. destruct (page s); reflexivity. }
      rewrite Hnew in Hn. destruct Hn as (Hf & Hh & Hp).
      destruct (IH (interrupted (pause env) (final r))) as (P1 & P2 & P3).
      { autorewrite with streamer. congruence. }
      { exact Hrest. }
      revert P2 P3. tidy. intros P2 P3.
      rewrite Hp, P1, P2, P3. auto.
    + destruct (capture_loop_of_idle _capture_and_send (env :: rest) s Hr)
        as (_ & E2 & E3).
      unfold _capture_loop. rewrite E2, E3. auto.
Qed.

(** ** [_wait_for_target] *)

Lemma probe_once_spec env s :
  runs (probe_once env) s (fun o s' t =>
    o = Ok (available (result (probe env)))
    /\ s' = interrupted (probe env) s
    /\ t = Get (target_url (config s)) (result (probe env))
           :: interruption (probe env) s
           ++ match result (probe env) with
              | Returned status_code =>
                  if status_code <? 500
                  then [Print (LogTargetAvailable status_code)] else []
              | Raised _ => []
              end).
Proof.
  unfold probe_once.
  repeat step; simpl; rewrite ?app_nil_r; repeat split;
    rewrite ?Heqc; simpl; rewrite ?Heqb; auto.
Qed.

(** The cases of the probing loop: script exhausted, budget exhausted, flag
    cleared, target found, target not found yet. *)
Lemma probe_loop_cases timeout start
    (P : list ProbeEnv -> ScreenshotStreamer -> Spec bool) :
  (forall s, P [] s Pending s []) ->
  (forall env rest s,
      in_budget timeout start env = false ->
      P (env :: rest) s (Ok false) s []) ->
  (forall env rest s,
      in_budget timeout start env = true -> running s = false ->
      P (env :: rest) s (Ok false) s []) ->
  (forall env rest s status_code,
      in_budget timeout start env = true -> running s = true ->
      result (probe env) = Returned status_code ->
      (status_code <? 500) = true ->
      P (env :: rest) s (Ok true) (interrupted (probe env) s)
        (Get (target_url (config s)) (result (probe env))
           :: interruption (probe env) s
           ++ [Print (LogTargetAvailable status_code)])) ->
  (forall env rest s o s' t,
      in_budget timeout start env = true -> running s = true ->
      available (result (probe env)) = false ->
      P rest (interrupted (nap env) (interrupted (probe env) s)) o s' t ->
      P (env :: rest) s o s'
        (Get (target_url (config s)) (result (probe env))
           :: interruption (probe env) s
           ++ Sleep 1 :: interruption (nap env) (interrupted (probe env) s)
           ++ t)) ->
  forall envs s, runs (probe_loop timeout start envs) s (P envs s).
Proof.
  intros Hnil Hlate Hidle Hfound Hretry.
  induction envs as [|env rest IH]; intros s; simpl.
  - step. apply Hnil.
  - fold (in_budget timeout start env).
    destruct (in_budget timeout start env) eqn:Hb; [|step; auto].
    step. step. destruct (running s) eqn:Hr; simpl; [|step; auto].
    step. eapply runs_conseq; [apply probe_once_spec|].
    intros o s1 t1 (-> & -> & ->).
    destruct (available (result (probe env))) eqn:Ha.
    + step. simpl.
      destruct (result (probe env)) as [status_code|e] eqn:Hres;
        [|discriminate].
      simpl in Ha. rewrite Ha, app_nil_r.
      rewrite <- Hres. apply Hfound; auto.
    + step. step. eapply runs_conseq; [apply IH|].
      intros o s2 t2 HP.
      apply (Hretry env rest s o s2 t2 Hb Hr Ha) in HP.
      assert (Hquiet :
        match result (probe env) with
        | Returned status_code =>
            if status_code <? 500
            then [Print (LogTargetAvailable status_code)] else []
        | Raised _ => []
        end = []).
      { destruct (result (probe env)); [simpl in Ha; rewrite Ha|];
          reflexivity. }
      rewrite Hquiet. simpl. rewrite ?app_nil_r, <- ?app_assoc. simpl.
      exact HP.
Qed.

Lemma probe_event_interruption {A} (w : Await A) s :
  Forall probe_event (interruption w s).
Proof.
  unfold interruption, stop_events.
  destruct (stop_requested w), (browser s); repeat constructor.
Qed.

Lemma probe_event_no_post t : Forall probe_event t -> post_events t = [].
Proof.
  induction 1 as [|e t He _ IH]; [reflexivity|].
  destruct e; simpl in *; tauto.
Qed.

Lemma probe_event_no_launch t : Forall probe_event t -> ~ In Launch t.
Proof.
  intros H Hin. rewrite Forall_forall in H. exact (H _ Hin).
Qed.

Lemma gaps_after_interruption {A} is_request since (w : Await A) s t :
  is_request (Print LogStopping) = false ->
  is_request CloseBrowser = false ->
  gaps_after is_request since (interruption w s ++ t) =
  gaps_after is_request since t.
Proof.
  intros H1 H2. unfold interruption, stop_events.
  destruct (stop_requested w), (browser s); simpl; rewrite ?H1, ?H2;
    reflexivity.
Qed.

(** The probing loop touches nothing but the flag and the browser handle
    (through [stop()]), and makes no POST. *)
Lemma probe_loop_footprint timeout start envs s :
  runs (probe_loop timeout start envs) s (fun o s' t =>
    keeps s s' /\ stop_or_same s s' t /\ Forall probe_event t).
Proof.
  apply (probe_loop_cases timeout start
           (fun _ s o s' t =>
              keeps s s' /\ stop_or_same s s' t /\ Forall probe_event t)).
  - intros s0. auto using keeps_refl, stop_or_same_refl.
  - intros env rest s0 _. auto using keeps_refl, stop_or_same_refl.
  - intros env rest s0 _ _. auto using keeps_refl, stop_or_same_refl.
  - intros env rest s0 status_code _ _ _ _. repeat split.
    1-5: autorewrite with streamer; reflexivity.
    + solve_stop.
    + constructor; [exact I|]. apply Forall_app. split.
      * apply probe_event_interruption.
      * repeat constructor.
  - intros env rest s0 o s' t _ _ _ (K & S & F). repeat split.
    1-5: destruct K as (K1 & K2 & K3 & K4 & K5);
      revert K1 K2 K3 K4 K5; autorewrite with streamer; auto.
    + apply stop_or_same_cons.
      eapply stop_or_same_trans; [apply stop_or_same_interrupted|].
      apply stop_or_same_cons.
      eapply stop_or_same_trans; [apply stop_or_same_interrupted|exact S].
    + constructor; [exact I|]. apply Forall_app. split.
      * apply probe_event_interruption.
      * constructor; [exact I|]. apply Forall_app. split.
        -- apply probe_event_interruption.
        -- exact F.
Qed.

(** It never raises. *)
Lemma probe_loop_no_raise timeout start envs s :
  forall e, outcome (probe_loop timeout start envs s) <> Raise e.
Proof.
  apply (probe_loop_cases timeout start
           (fun _ _ o _ _ => forall e, o <> Raise e)); try discriminate.
  auto.
Qed.

(** It answers [True] exactly when one of its probes met a status below
    500. *)
Lemma probe_loop_true_iff timeout start envs s :
  runs (probe_loop timeout start envs) s (fun o _ t =>
    o = Ok true <-> Exists (fun r => available r = true) (get_events t)).
Proof.
  apply (probe_loop_cases timeout start
           (fun _ _ o _ t =>
              o = Ok true <->
              Exists (fun r => available r = true) (get_events t))).
  - intros _. simpl. rewrite Exists_nil. split; [discriminate | tauto].
  - intros _ _ _ _. simpl. rewrite Exists_nil.
    split; [discriminate | tauto].
  - intros _ _ _ _ _. simpl. rewrite Exists_nil.
    split; [discriminate | tauto].
  - intros env rest s0 status_code _ _ Hres Hst. tidy.
    split; [intros _ | reflexivity].
    constructor. rewrite Hres. exact Hst.
  - intros env rest s0 o s' t _ _ Ha IH. tidy. rewrite IH.
    rewrite Exists_cons. rewrite Ha. intuition discriminate.
Qed.

(** The probes it issues are those of the first iterations of the script,
    and each of them starts within the budget. *)
Lemma probe_loop_within_budget timeout start envs s :
  runs (probe_loop timeout start envs) s (fun _ _ t =>
    exists n,
      get_events t = map (fun env => result (probe env)) (firstn n envs)
      /\ forallb (in_budget timeout start) (firstn n envs) = true).
Proof.
  apply (probe_loop_cases timeout start
           (fun envs _ _ _ t =>
              exists n,
                get_events t =
                map (fun env => result (probe env)) (firstn n envs)
                /\ forallb (in_budget timeout start) (firstn n envs) = true)).
  - intros _. exists 0%nat. auto.
  - intros env rest _ _. exists 0%nat. auto.
  - intros env rest _ _ _. exists 0%nat. auto.
  - intros env rest s0 status_code Hb _ _ _. exists 1%nat. tidy.
    rewrite Hb. auto.
  - intros env rest s0 o s' t Hb _ _ (n & Hg & Hall). exists (S n). tidy.
    rewrite Hb, Hg, Hall. auto.
Qed.

(** Once the clock leaves the budget it returns. *)
Lemma probe_loop_returns timeout start envs s :
  Exists (fun env => in_budget timeout start env = false) envs ->
  outcome (probe_loop timeout start envs s) <> Pending.
Proof.
  apply (probe_loop_cases timeout start
           (fun envs _ o _ _ =>
              Exists (fun env => in_budget timeout start env = false) envs ->
              o <> Pending)); try discriminate.
  - intros _ H. inversion H.
  - intros env rest s0 o s' t Hb _ _ IH H.
    inversion H; subst; [congruence | auto].
Qed.

(** Between two probes it sleeps one second, once. *)
Lemma probe_loop_gaps timeout start envs s :
  runs (probe_loop timeout start envs) s (fun _ _ t =>
    forall since,
      gaps_after is_get since t = []
      \/ exists later,
           gaps_after is_get since t = rev since :: later
           /\ Forall (fun gap => gap = [1%Q]) later).
Proof.
  apply (probe_loop_cases timeout start
           (fun _ _ _ _ t =>
              forall since,
                gaps_after is_get since t = []
                \/ exists later,
                     gaps_after is_get since t = rev since :: later
                     /\ Forall (fun gap => gap = [1%Q]) later)); auto.
  - intros env rest s0 status_code _ _ _ _ since. right. exists [].
    simpl. rewrite gaps_after_interruption by reflexivity. auto.
  - intros env rest s0 o s' t _ _ _ IH since. right. simpl.
    rewrite gaps_after_interruption by reflexivity. simpl.
    rewrite gaps_after_interruption by reflexivity.
    destruct (IH [1%Q]) as [-> | (later & -> & Hl)]; eauto.
Qed.

Lemma quiet_after_stop_interruption {A} (w : Await A) s t :
  (stop_requested w = true -> get_events t = []) ->
  quiet_after_stop t ->
  quiet_after_stop (interruption w s ++ t).
Proof.
  unfold interruption, stop_events. intros H1 H2.
  destruct (stop_requested w), (browser s); simpl; auto.
Qed.

(** After [stop()] has run it issues no further probe. *)
Lemma probe_loop_quiet_after_stop timeout start envs s :
  runs (probe_loop timeout start envs) s (fun _ _ t =>
    quiet_after_stop t /\ (running s = false -> get_events t = [])).
Proof.
  apply (probe_loop_cases timeout start
           (fun _ s _ _ t =>
              quiet_after_stop t
              /\ (running s = false -> get_events t = []))); simpl; auto.
  - intros env rest s0 status_code _ Hr _ _. split; [|congruence].
    apply quiet_after_stop_interruption; simpl; auto.
  - intros env rest s0 o s' t _ Hr _ (IH1 & IH2). split; [|congruence].
    revert IH2. rewrite !running_interrupted. intros IH2.
    apply quiet_after_stop_interruption.
    + intros Hs. tidy. apply IH2. rewrite Hs. apply andb_false_intro1.
      apply andb_false_r.
    + simpl. apply quiet_after_stop_interruption; [|exact IH1].
      intros Hs. apply IH2. rewrite Hs. apply andb_false_r.
Qed.

Lemma wait_for_target_as_loop timeout start envs s :
  continues_as (_wait_for_target timeout start envs s) [Print LogWaiting]
    (probe_loop timeout start envs s).
Proof.
  apply continues_as_runs. unfold _wait_for_target.
  step. step. apply runs_here. destruct (outcome _); auto.
Qed.

(** ** [start] *)

Lemma runs_async_with_playwright {A} (m : M A) s (Q : Spec A) :
  runs m s (fun o s' t =>
    match o with
    | Pending => Q Pending s' t
    | _ => Q o s' (t ++ [ExitPlaywright])
    end) ->
  runs (async_with_playwright m) s Q.
Proof.
  unfold runs, async_with_playwright.
  destruct (outcome (m s)) eqn:E; simpl; rewrite ?E; auto.
Qed.

Lemma wait_for_target_facts timeout start envs s r :
  r = _wait_for_target timeout start envs s ->
  (forall e, outcome r <> Raise e)
  /\ keeps s (final r)
  /\ stop_or_same s (final r) (trace r)
  /\ Forall probe_event (trace r).
Proof.
  intros ->.
  destruct (wait_for_target_as_loop timeout start envs s) as (-> & -> & ->).
  destruct (probe_loop_footprint timeout start envs s) as (K & S & F).
  repeat split; try apply K.
  - apply probe_loop_no_raise.
  - apply (stop_or_same_cons _ _ _ _ S).
  - constructor; [exact I | exact F].
Qed.

(** The POSTs of a run are those of its capture loop, entered with the
    counter [start] found. *)
Lemma start_posts env s :
  post_events (trace (start env s)) = []
  \/ exists s1,
       frame_count s1 = frame_count s
       /\ post_events (trace (start env s)) =
          post_events (trace (_capture_loop (cycles env) s1)).
Proof.
  change (runs (start env) s (fun _ _ t =>
    post_events t = []
    \/ exists s1,
         frame_count s1 = frame_count s
         /\ post_events t =
            post_events (trace (_capture_loop (cycles env) s1)))).
  unfold start. repeat step.
  remember (_wait_for_target 60 (t0 env) (probes env)
              (set_http_client (Some Open) (set_running true s))) as r
    eqn:Er.
  destruct (wait_for_target_facts _ _ _ _ r Er) as (Hnr & K & _ & F).
  apply probe_event_no_post in F. destruct K as (_ & _ & Kf & _).
  simpl in Kf. apply runs_here. rewrite <- Er.
  destruct (outcome r) as [[|]|e|]; simpl negb; cbv iota;
    try (tidy; rewrite ?F; auto; fail).
  - step. apply runs_async_with_playwright.
    repeat step; try (tidy; rewrite ?F; auto; fail).
    apply runs_here.
    match goal with
    | |- context [_capture_loop (cycles env) ?s1] =>
        destruct (outcome (_capture_loop (cycles env) s1));
        repeat step; right; exists s1;
        (split; [tidy; exact Kf|]);
        tidy; rewrite ?F; simpl; rewrite ?app_nil_r; reflexivity
    end.
  - repeat step. tidy. rewrite F. auto.
Qed.

(** * The claims *)

Lemma attempted_failed_in_range env n :
  (forall a, 0 <= a < n -> delivered (result (post (env a))) = false) ->
  attempted env (range n) = range n.
Proof.
  intros H. apply attempted_all_failed, Forall_forall.
  intros a Ha. apply H, in_range, Ha.
Qed.

Lemma new_frame_some s env b :
  page s <> None ->
  result (shot env) = Returned b ->
  hash_eq (frame_hash_of b) (last_frame_hash s) = false ->
  new_frame s env = Some b.
Proof.
  intros Hp Hs Hh. unfold new_frame. rewrite Hs, Hh.
  destruct (page s); [reflexivity | contradiction].
Qed.

(** C1, as the code has it: when every attempt fails (a status other than
    200 or a transport error), [_send_frame] makes exactly [max_retries] POST
    attempts (not [max_retries + 1]) and returns normally; the frame is
    dropped, and the capture loop sleeps for the interval and goes on with
    the next iteration, the running flag untouched unless [stop()] ran. *)
Theorem send_frame_gives_up env rest s b :
  running s = true ->
  page s <> None ->
  _http_client s <> None ->
  result (shot env) = Returned b ->
  hash_eq (frame_hash_of b) (last_frame_hash s) = false ->
  (forall a, 0 <= a < max_retries (config s) ->
             delivered (result (post (attempts env a))) = false) ->
  (forall now data h,
      outcome (_send_frame (attempts env) now data h s) = Ok tt
      /\ List.length
           (post_events (trace (_send_frame (attempts env) now data h s))) =
         Z.to_nat (max_retries (config s)))
  /\ outcome (_capture_and_send env s) = Ok tt
  /\ List.length (post_events (trace (_capture_and_send env s))) =
     Z.to_nat (max_retries (config s))
  /\ Forall (fun p => delivered (snd p) = false)
            (post_events (trace (_capture_and_send env s)))
  /\ continues_as (_capture_loop (env :: rest) s)
       (trace (_capture_and_send env s)
          ++ Sleep (interval (config s))
          :: interruption (pause env) (final (_capture_and_send env s)))
       (_capture_loop rest
          (interrupted (pause env) (final (_capture_and_send env s))))
  /\ (~ In (Print LogStopping)
          (trace (_capture_and_send env s)
             ++ interruption (pause env) (final (_capture_and_send env s))) ->
      running (interrupted (pause env) (final (_capture_and_send env s))) =
      true).
Proof.
  intros Hr Hp Hc Hs Hh Hfail.
  pose proof (attempted_failed_in_range (attempts env) _ Hfail) as Hatt.
  split; [|remember (_capture_and_send env s) as r eqn:Er].
  - intros now data h.
    destruct (send_frame_spec (attempts env) now data h s)
      as (Ho & _ & _ & Hposts).
    split; [exact Ho|]. rewrite Hposts.
    destruct (_http_client s); [|contradiction].
    rewrite Hatt, length_map. apply length_range.
  - destruct (capture_and_send_facts env s r Er)
      as (Ho & _ & _ & _ & Hstop & Hn).
    rewrite (new_frame_some s env b Hp Hs Hh) in Hn.
    destruct Hn as (_ & _ & Hposts).
    assert (Hfp : frame_posts s env (frame_count s + 1) b =
                  map (fun a =>
                         (frame_payload (config s) (frame_count s + 1)
                            (stamp env) (b64encode b) (frame_hash_of b),
                          result (post (attempts env a))))
                      (range (max_retries (config s)))).
    { unfold frame_posts. destruct (_http_client s); [|contradiction].
      rewrite Hatt. reflexivity. }
    rewrite Hposts, Hfp. repeat split.
    + exact Ho.
    + rewrite length_map. apply length_range.
    + apply Forall_map, Forall_forall. intros a Ha. simpl.
      apply Hfail, in_range, Ha.
    + apply (capture_loop_step env rest s r Hr Er).
    + apply (capture_loop_step env rest s r Hr Er).
    + apply (capture_loop_step env rest s r Hr Er).
    + intros Hquiet.
      pose proof (stop_or_same_trans _ _ _ _ _ Hstop
                    (stop_or_same_interrupted (pause env) (final r))) as [H|H].
      * contradiction.
      * rewrite H. exact Hr.
Qed.

Lemma hash_eq_true h last : hash_eq h last = true <-> last = Some h.
Proof.
  unfold hash_eq. destruct last as [h'|]; [|split; discriminate].
  rewrite String.eqb_eq. split; congruence.
Qed.

Lemma new_frame_duplicate s env b :
  result (shot env) = Returned b ->
  last_frame_hash s = Some (frame_hash_of b) ->
  new_frame s env = None.
Proof.
  intros Hs Hl. unfold new_frame. rewrite Hs.
  rewrite (proj2 (hash_eq_true _ _) Hl). destruct (page s); reflexivity.
Qed.

(** After a cycle that captured [b] with a page, the stored fingerprint is
    that of [b], new frame or not. *)
Lemma capture_and_send_stores_hash env s b :
  page s <> None ->
  result (shot env) = Returned b ->
  last_frame_hash (final (_capture_and_send env s)) =
  Some (frame_hash_of b).
Proof.
  intros Hp Hs.
  destruct (capture_and_send_facts env s _ eq_refl)
    as (_ & _ & _ & _ & _ & Hn).
  destruct (hash_eq (frame_hash_of b) (last_frame_hash s)) eqn:Hh.
  - rewrite (new_frame_duplicate s env b Hs) in Hn
      by (apply hash_eq_true, Hh).
    destruct Hn as (_ & -> & _). apply hash_eq_true, Hh.
  - rewrite (new_frame_some s env b Hp Hs Hh) in Hn. apply Hn.
Qed.

(** C2: a capture whose fingerprint equals the stored one makes the cycle a
    no-op (the counter and the stored fingerprint stay, no POST is made); and
    of consecutive cycles that capture the same bytes, only the first can
    make delivery attempts. *)
Theorem duplicate_capture_is_noop env envs s b :
  result (shot env) = Returned b ->
  (last_frame_hash s = Some (frame_hash_of b) ->
   outcome (_capture_and_send env s) = Ok tt
   /\ frame_count (final (_capture_and_send env s)) = frame_count s
   /\ last_frame_hash (final (_capture_and_send env s)) = last_frame_hash s
   /\ post_events (trace (_capture_and_send env s)) = [])
  /\ (running s = true ->
      page s <> None ->
      Forall (fun env' => result (shot env') = Returned b) envs ->
      post_events (trace (_capture_loop (env :: envs) s)) =
      post_events (trace (_capture_and_send env s))
      /\ frame_count (final (_capture_loop (env :: envs) s)) =
         frame_count (final (_capture_and_send env s))).
Proof.
  intros Hs. remember (_capture_and_send env s) as r eqn:Er.
  destruct (capture_and_send_facts env s r Er)
    as (Ho & _ & _ & _ & _ & Hn).
  split.
  - intros Hl. rewrite (new_frame_duplicate s env b Hs Hl) in Hn. tauto.
  - intros Hr Hp Hall.
    destruct (capture_loop_step env envs s r Hr Er) as (_ & -> & ->).
    destruct (capture_loop_duplicates b envs
                (interrupted (pause env) (final r))) as (P1 & P2 & _).
    + autorewrite with streamer. subst r.
      apply capture_and_send_stores_hash; assumption.
    + exact Hall.
    + revert P2. tidy. intros P2. rewrite P1, P2, app_nil_r. auto.
Qed.

(** C4: [_send_frame] never writes the counter nor the stored fingerprint,
    whatever becomes of the delivery.  So a new frame keeps the number it
    consumed even when it is given up: all its POSTs carry that number, every
    POST of the cycles that follow carries a higher one, and a later capture
    of the same bytes is still suppressed. *)
Theorem send_frame_keeps_counter_and_hash env s b :
  page s <> None ->
  result (shot env) = Returned b ->
  hash_eq (frame_hash_of b) (last_frame_hash s) = false ->
  (forall answers now data h s0,
      frame_count (final (_send_frame answers now data h s0)) =
      frame_count s0
      /\ last_frame_hash (final (_send_frame answers now data h s0)) =
         last_frame_hash s0)
  /\ frame_count (final (_capture_and_send env s)) = frame_count s + 1
  /\ last_frame_hash (final (_capture_and_send env s)) =
     Some (frame_hash_of b)
  /\ Forall (fun p => frameNumber (fst p) = frame_count s + 1)
            (post_events (trace (_capture_and_send env s)))
  /\ (forall envs,
        Forall (fun p => frame_count s + 1 < frameNumber (fst p))
          (post_events
             (trace (_capture_loop envs
                (interrupted (pause env)
                   (final (_capture_and_send env s)))))))
  /\ (forall env',
        result (shot env') = Returned b ->
        post_events
          (trace (_capture_and_send env'
             (interrupted (pause env) (final (_capture_and_send env s))))) =
        []
        /\ frame_count
             (final (_capture_and_send env'
                (interrupted (pause env)
                   (final (_capture_and_send env s))))) =
           frame_count s + 1).
Proof.
  intros Hp Hs Hh. split.
  { intros answers now data h s0.
    destruct (send_frame_spec answers now data h s0) as (_ & K & _).
    split; apply K. }
  remember (_capture_and_send env s) as r eqn:Er.
  destruct (capture_and_send_facts env s r Er)
    as (_ & _ & _ & _ & _ & Hn).
  rewrite (new_frame_some s env b Hp Hs Hh) in Hn.
  destruct Hn as (Hf & Hl & Hposts).
  split; [exact Hf|]. split; [exact Hl|]. split; [|split].
  - rewrite Hposts. apply frame_posts_numbers.
  - intros envs. rewrite <- Hf.
    rewrite <- (frame_count_interrupted (pause env) (final r)).
    apply capture_loop_numbers_above.
  - intros env' Hs'.
    destruct (capture_and_send_facts env'
                (interrupted (pause env) (final r)) _ eq_refl)
      as (_ & _ & _ & _ & _ & Hn').
    rewrite new_frame_duplicate with (b := b) in Hn';
      [|exact Hs'|autorewrite with streamer; exact Hl].
    destruct Hn' as (Hf' & _ & Hp'). split; [exact Hp'|].
    rewrite Hf'. autorewrite with streamer. exact Hf.
Qed.

(** C10: with [max_retries = 0] the loop of [_send_frame] has no iteration:
    no POST is made.  A new frame still consumes its number and replaces the
    stored fingerprint, and no cycle of the run ever sends anything. *)
Theorem zero_retries_sends_nothing env envs s b :
  max_retries (config s) = 0 ->
  (forall now data h,
      outcome (_send_frame (attempts env) now data h s) = Ok tt
      /\ trace (_send_frame (attempts env) now data h s) = [])
  /\ (page s <> None ->
      result (shot env) = Returned b ->
      hash_eq (frame_hash_of b) (last_frame_hash s) = false ->
      outcome (_capture_and_send env s) = Ok tt
      /\ frame_count (final (_capture_and_send env s)) = frame_count s + 1
      /\ last_frame_hash (final (_capture_and_send env s)) =
         Some (frame_hash_of b)
      /\ post_events (trace (_capture_and_send env s)) = [])
  /\ post_events (trace (_capture_loop envs s)) = [].
Proof.
  intros Hm. split; [|split].
  - intros now data h.
    change (runs (_send_frame (attempts env) now data h) s
              (fun o _ t => o = Ok tt /\ t = [])).
    unfold _send_frame. step. step. rewrite Hm.
    change (range 0) with (@nil Z). simpl send_attempts. repeat step; auto.
  - intros Hp Hs Hh.
    destruct (capture_and_send_facts env s _ eq_refl)
      as (Ho & _ & _ & _ & _ & Hn).
    rewrite (new_frame_some s env b Hp Hs Hh) in Hn.
    destruct Hn as (Hf & Hl & Hposts).
    rewrite Hposts, frame_posts_disabled by lia. auto.
  - apply capture_loop_disabled. right. lia.
Qed.

Lemma zseq_one n : zseq 1 n = map Z.of_nat (seq 1 n).
Proof.
  unfold zseq. rewrite <- seq_shift, map_map. apply map_ext. intros i. lia.
Qed.

(** C3: in a run all of whose POSTs are answered with 200, the frame numbers
    posted are 1, 2, ..., n in this order: increasing, without gap, from 1. *)
Theorem delivered_frame_numbers cfg env :
  Forall (fun p => delivered (snd p) = true)
         (post_events (trace (start env (mkScreenshotStreamer cfg)))) ->
  frame_numbers (trace (start env (mkScreenshotStreamer cfg))) =
  map Z.of_nat
      (seq 1 (List.length
                (post_events (trace (start env (mkScreenshotStreamer cfg)))))).
Proof.
  intros Hall. unfold frame_numbers.
  destruct (start_posts env (mkScreenshotStreamer cfg))
    as [-> | (s1 & Hf & Hp)]; [reflexivity|].
  rewrite Hp in Hall |- *.
  pose proof (capture_loop_frame_numbers (cycles env) s1 Hall) as Hnum.
  unfold frame_numbers in Hnum. rewrite Hnum, Hf. simpl frame_count.
  apply zseq_one.
Qed.

(** A run that returns with the flag still set ended on the probe or on the
    navigation. *)
Ltac search_in :=
  lazymatch goal with
  | |- In _ (_ ++ _) =>
      apply in_or_app; first [left; search_in | right; search_in]
  | |- In _ (_ :: _) => first [left; reflexivity | right; search_in]
  end.






(** When the probe answers [False], [start] logs it and returns. *)
Lemma start_without_target env s :
  outcome (_wait_for_target 60 (t0 env) (probes env) (started s)) =
  Ok false ->
  outcome (start env s) = Ok tt
  /\ final (start env s) =
     final (_wait_for_target 60 (t0 env) (probes env) (started s))
  /\ trace (start env s) =
     [Print LogStarting; Print (LogTargetUrl (target_url (config s)));
      Print (LogInterval (interval (config s))); OpenClient]
       ++ trace (_wait_for_target 60 (t0 env) (probes env) (started s))
       ++ [Print LogNeverAvailable].
Proof.
  intros Ho.
  change (runs (start env) s (fun o s' t =>
    o = Ok tt
    /\ s' = final (_wait_for_target 60 (t0 env) (probes env) (started s))
    /\ t = [Print LogStarting; Print (LogTargetUrl (target_url (config s)));
            Print (LogInterval (interval (config s))); OpenClient]
             ++ trace (_wait_for_target 60 (t0 env) (probes env) (started s))
             ++ [Print LogNeverAvailable])).
  unfold start. repeat step. apply runs_here.
  fold (started s). rewrite Ho. simpl negb. cbv iota.
  repeat step. simpl. rewrite ?app_nil_r. auto.
Qed.

(** C8, as the code has it: when the probing gives up, [start] returns
    normally, so the script runs to its end and the process exits with
    status 0 (not with a non-zero status); no browser was launched and no
    frame was sent. *)
Theorem probe_timeout_exits_normally args env :
  outcome (_wait_for_target 60 (t0 env) (probes env)
             (started (mkScreenshotStreamer (config_of_args args)))) =
  Ok false ->
  outcome (main args env) = Ok tt
  /\ exit_status (main args env) = Some 0
  /\ In (Print LogNeverAvailable) (trace (main args env))
  /\ post_events (trace (main args env)) = []
  /\ ~ In Launch (trace (main args env)).
Proof.
  intros Ho. unfold exit_status, main.
  destruct (start_without_target env _ Ho) as (-> & _ & ->).
  destruct (wait_for_target_facts 60 (t0 env) (probes env)
              (started (mkScreenshotStreamer (config_of_args args))) _
              eq_refl)
    as (_ & _ & _ & F).
  repeat split.
  - search_in.
  - rewrite !post_events_app, (probe_event_no_post _ F). reflexivity.
  - rewrite !in_app_iff. intros [H | [H | H]].
    + simpl in H. intuition discriminate.
    + exact (probe_event_no_launch _ F H).
    + simpl in H. intuition discriminate.
Qed.

Lemma probe_loop_idle timeout start envs s :
  running s = false ->
  envs <> [] ->
  outcome (probe_loop timeout start envs s) = Ok false.
Proof.
  apply (probe_loop_cases timeout start
           (fun envs s o _ _ =>
              running s = false -> envs <> [] -> o = Ok false));
    try congruence.
Qed.

Lemma wait_for_target_probes timeout start envs s :
  (forall e, outcome (_wait_for_target timeout start envs s) <> Raise e)
  /\ (outcome (_wait_for_target timeout start envs s) = Ok true <->
      Exists (fun r => available r = true)
             (get_events (trace (_wait_for_target timeout start envs s))))
  /\ (exists n,
        get_events (trace (_wait_for_target timeout start envs s)) =
        map (fun env => result (probe env)) (firstn n envs)
        /\ forallb (in_budget timeout start) (firstn n envs) = true)
  /\ Forall (fun gap => gap = [1%Q])
            (gaps_between is_get
               (trace (_wait_for_target timeout start envs s)))
  /\ (Exists (fun env => in_budget timeout start env = false) envs ->
      outcome (_wait_for_target timeout start envs s) <> Pending)
  /\ (running s = false -> envs <> [] ->
      outcome (_wait_for_target timeout start envs s) = Ok false
      /\ get_events (trace (_wait_for_target timeout start envs s)) = [])
  /\ quiet_after_stop (trace (_wait_for_target timeout start envs s)).
Proof.
  destruct (wait_for_target_as_loop timeout start envs s) as (-> & _ & ->).
  unfold gaps_between. simpl.
  destruct (probe_loop_quiet_after_stop timeout start envs s) as (Hq & Hi).
  repeat split.
  - apply probe_loop_no_raise.
  - apply (probe_loop_true_iff timeout start envs s).
  - apply (probe_loop_true_iff timeout start envs s).
  - apply (probe_loop_within_budget timeout start envs s).
  - destruct (probe_loop_gaps timeout start envs s [])
      as [-> | (later & -> & Hl)]; [constructor | exact Hl].
  - apply probe_loop_returns.
  - apply probe_loop_idle; assumption.
  - auto.
  - exact Hq.
Qed.

(** An unsuccessful probe is followed by a sleep of one second and by the
    next iteration of the loop. *)
Lemma probe_loop_retry timeout start env rest s :
  in_budget timeout start env = true ->
  running s = true ->
  available (result (probe env)) = false ->
  continues_as (probe_loop timeout start (env :: rest) s)
    (Get (target_url (config s)) (result (probe env))
       :: interruption (probe env) s
       ++ Sleep 1 :: interruption (nap env) (interrupted (probe env) s))
    (probe_loop timeout start rest
       (interrupted (nap env) (interrupted (probe env) s))).
Proof.
  intros Hb Hr Ha. apply continues_as_runs. simpl probe_loop.
  fold (in_budget timeout start env). rewrite Hb.
  step. step. rewrite Hr. simpl negb. cbv iota.
  step. eapply runs_conseq; [apply probe_once_spec|].
  intros o s1 t1 (-> & -> & ->). rewrite Ha.
  step. step. apply runs_here.
  assert (Hquiet :
    match result (probe env) with
    | Returned status_code =>
        if status_code <? 500
        then [Print (LogTargetAvailable status_code)] else []
    | Raised _ => []
    end = []).
  { destruct (result (probe env)); [simpl in Ha; rewrite Ha|];
      reflexivity. }
  rewrite Hquiet. simpl. rewrite ?app_nil_r, <- ?app_assoc. simpl.
  repeat split.
Qed.

(** The head of the loop: a clock outside the budget ends it with [False]
    before any probe; a probe that meets a status below 500 ends it with
    [True], with no sleep. *)
Lemma probe_loop_head timeout start env rest s :
  (in_budget timeout start env = false ->
   outcome (probe_loop timeout start (env :: rest) s) = Ok false
   /\ trace (probe_loop timeout start (env :: rest) s) = [])
  /\ (in_budget timeout start env = true ->
      running s = true ->
      available (result (probe env)) = true ->
      outcome (probe_loop timeout start (env :: rest) s) = Ok true
      /\ get_events (trace (probe_loop timeout start (env :: rest) s)) =
         [result (probe env)]
      /\ sleeps (trace (probe_loop timeout start (env :: rest) s)) = []).
Proof.
  refine (probe_loop_cases timeout start
           (fun envs s o _ t =>
              match envs with
              | [] => True
              | env :: _ =>
                  (in_budget timeout start env = false ->
                   o = Ok false /\ t = [])
                  /\ (in_budget timeout start env = true ->
                      running s = true ->
                      available (result (probe env)) = true ->
                      o = Ok true
                      /\ get_events t = [result (probe env)]
                      /\ sleeps t = [])
              end) _ _ _ _ _ (env :: rest) s).
  - intros _. exact I.
  - intros env0 rest0 s0 Hb. split; [auto | congruence].
  - intros env0 rest0 s0 Hb Hr. split; congruence.
  - intros env0 rest0 s0 status_code Hb Hr Hres Hs. split; [congruence|].
    intros _ _ _. split; [reflexivity|].
    simpl. rewrite get_events_app, get_events_interruption,
      sleeps_app, sleeps_interruption. auto.
  - intros env0 rest0 s0 o s' t Hb Hr Ha _. split; congruence.
Qed.

(** Iterations that are retried: one GET and one sleep of one second each,
    then the loop goes on with the iterations that follow. *)
Lemma probe_loop_retried timeout start tail pre : forall s,
  running s = true ->
  Forall (retried timeout start) pre ->
  outcome (probe_loop timeout start (pre ++ tail) s) =
  outcome (probe_loop timeout start tail s)
  /\ get_events (trace (probe_loop timeout start (pre ++ tail) s)) =
     map (fun env => result (probe env)) pre
       ++ get_events (trace (probe_loop timeout start tail s))
  /\ sleeps (trace (probe_loop timeout start (pre ++ tail) s)) =
     repeat 1%Q (List.length pre)
       ++ sleeps (trace (probe_loop timeout start tail s)).
Proof.
  induction pre as [|env pre IH]; intros s Hr Hpre; [auto|].
  inversion Hpre as [|? ? (Hb & Ha & Hp & Hn) Hrest]; subst.
  destruct (probe_loop_retry timeout start env (pre ++ tail) s Hb Hr Ha)
    as (Ho & _ & Ht).
  unfold interrupted, interruption in Ho, Ht. rewrite Hp, Hn in Ho, Ht.
  destruct (IH s Hr Hrest) as (IHo & IHg & IHs).
  change ((env :: pre) ++ tail) with (env :: pre ++ tail).
  rewrite Ho, Ht. simpl. rewrite IHo, IHg, IHs. auto.
Qed.

(** Every sleep of the loop lasts one second, and there is one for each
    probe that met a transport error or a status of 500 or above. *)
Lemma probe_loop_sleeps timeout start envs s :
  runs (probe_loop timeout start envs) s (fun _ _ t =>
    sleeps t =
    map (fun _ => 1%Q)
        (filter (fun r => negb (available r)) (get_events t))).
Proof.
  apply (probe_loop_cases timeout start
           (fun _ _ _ _ t =>
              sleeps t =
              map (fun _ => 1%Q)
                  (filter (fun r => negb (available r)) (get_events t))));
    auto.
  - intros env rest s0 status_code _ _ Hres Hs. simpl.
    rewrite get_events_app, get_events_interruption,
      sleeps_app, sleeps_interruption. simpl.
    rewrite Hres. simpl. rewrite Hs. reflexivity.
  - intros env rest s0 o s' t _ _ Ha IH. simpl.
    rewrite Ha. simpl.
    rewrite !get_events_app, !sleeps_app, get_events_interruption,
      sleeps_interruption. simpl.
    rewrite get_events_app, sleeps_app, get_events_interruption,
      sleeps_interruption. simpl. rewrite IH. reflexivity.
Qed.

(** C6, as the code has it: [_wait_for_target] never raises; it returns
    [True] exactly when one of its probes met a status below 500; the probes
    it issues are those of the first iterations, each started within the
    budget; between two probes it sleeps one second; once the clock leaves
    the budget it returns.  The running flag is read at the head of each
    iteration only: found cleared there, the function returns [False], and
    after [stop()] has run no further probe is issued; but a probe in flight
    while [stop()] runs still yields [True] if it meets a status below
    500.  A probe that meets a transport error or a status of 500 or above
    is always followed by a sleep of one second and by the next iteration of
    the loop: there is one sleep for each such probe and no other; after [k]
    such probes with no [stop()], a probe that meets a status below 500 gives
    [True] after [k + 1] GETs and [k] sleeps, and a clock outside the budget
    gives [False] after [k] GETs and [k] sleeps. *)
Theorem wait_for_target_contract timeout start envs s :
  (forall e, outcome (_wait_for_target timeout start envs s) <> Raise e)
  /\ (outcome (_wait_for_target timeout start envs s) = Ok true <->
      Exists (fun r => available r = true)
             (get_events (trace (_wait_for_target timeout start envs s))))
  /\ (exists n,
        get_events (trace (_wait_for_target timeout start envs s)) =
        map (fun env => result (probe env)) (firstn n envs)
        /\ forallb (in_budget timeout start) (firstn n envs) = true)
  /\ Forall (fun gap => gap = [1%Q])
            (gaps_between is_get
               (trace (_wait_for_target timeout start envs s)))
  /\ (Exists (fun env => in_budget timeout start env = false) envs ->
      outcome (_wait_for_target timeout start envs s) <> Pending)
  /\ (running s = false -> envs <> [] ->
      outcome (_wait_for_target timeout start envs s) = Ok false
      /\ get_events (trace (_wait_for_target timeout start envs s)) = [])
  /\ quiet_after_stop (trace (_wait_for_target timeout start envs s))
  /\ sleeps (trace (_wait_for_target timeout start envs s)) =
     map (fun _ => 1%Q)
         (filter (fun r => negb (available r))
                 (get_events (trace (_wait_for_target timeout start envs s))))
  /\ (forall env rest,
        envs = env :: rest ->
        running s = true ->
        in_budget timeout start env = true ->
        available (result (probe env)) = false ->
        continues_as (_wait_for_target timeout start envs s)
          (Print LogWaiting
             :: Get (target_url (config s)) (result (probe env))
             :: interruption (probe env) s
             ++ Sleep 1 :: interruption (nap env) (interrupted (probe env) s))
          (probe_loop timeout start rest
             (interrupted (nap env) (interrupted (probe env) s))))
  /\ (forall pre env rest,
        envs = pre ++ env :: rest ->
        running s = true ->
        Forall (retried timeout start) pre ->
        (in_budget timeout start env = true ->
         available (result (probe env)) = true ->
         outcome (_wait_for_target timeout start envs s) = Ok true
         /\ get_events (trace (_wait_for_target timeout start envs s)) =
            map (fun p => result (probe p)) (pre ++ [env])
         /\ sleeps (trace (_wait_for_target timeout start envs s)) =
            repeat 1%Q (List.length pre))
        /\ (in_budget timeout start env = false ->
            outcome (_wait_for_target timeout start envs s) = Ok false
            /\ get_events (trace (_wait_for_target timeout start envs s)) =
               map (fun p => result (probe p)) pre
            /\ sleeps (trace (_wait_for_target timeout start envs s)) =
               repeat 1%Q (List.length pre))).
Proof.
  pose proof (wait_for_target_probes timeout start envs s)
    as (H1 & H2 & H3 & H4 & H5 & H6 & H7).
  repeat (split; [assumption|]).
  destruct (wait_for_target_as_loop timeout start envs s) as (Ho & Hf & Ht).
  split; [|split].
  - rewrite Ht. simpl. apply (probe_loop_sleeps timeout start envs s).
  - intros env rest -> Hr Hb Ha.
    destruct (probe_loop_retry timeout start env rest s Hb Hr Ha)
      as (Lo & Lf & Lt).
    unfold continues_as. rewrite Ho, Hf, Ht, Lt. simpl. auto.
  - intros pre env rest -> Hr Hpre. rewrite Ho, Ht. simpl.
    destruct (probe_loop_retried timeout start (env :: rest) pre s Hr Hpre)
      as (-> & -> & ->).
    destruct (probe_loop_head timeout start env rest s) as (Hlate & Hfound).
    split.
    + intros Hb Ha. destruct (Hfound Hb Hr Ha) as (-> & -> & ->).
      rewrite map_app, app_nil_r. auto.
    + intros Hb. destruct (Hlate Hb) as (-> & ->).
      simpl. rewrite !app_nil_r. auto.
Qed.

(** * Further properties of the streamer *)

(** Induction on the iterations of the loop that do run, with the object
    the loop ends on. *)
Lemma capture_loop_run_ind
    (P : ScreenshotStreamer -> ScreenshotStreamer -> list Event -> Prop) :
  (forall s, P s s []) ->
  (forall env s r s' t,
      running s = true ->
      r = _capture_and_send env s ->
      P (interrupted (pause env) (final r)) s' t ->
      P s s' (trace r ++ Sleep (interval (config s))
                      :: interruption (pause env) (final r) ++ t)) ->
  forall envs s,
    P s (final (_capture_loop envs s)) (trace (_capture_loop envs s)).
Proof.
  intros Hnil Hcons. induction envs as [|env rest IH]; intros s.
  - rewrite capture_loop_trace_nil.
    replace (final (_capture_loop [] s)) with s; [apply Hnil|].
    unfold _capture_loop.
    change (runs (capture_loop_of _capture_and_send []) s
              (fun _ s' _ => s = s')).
    rewrite capture_loop_of_nil. repeat step; reflexivity.
  - destruct (running s) eqn:Hr.
    + destruct (capture_loop_step env rest s _ Hr eq_refl) as (_ & -> & ->).
      rewrite <- app_assoc. simpl.
      apply (Hcons env s _ _ _ Hr eq_refl), IH.
    + destruct (capture_loop_of_idle _capture_and_send (env :: rest) s Hr)
        as (_ & E2 & E3).
      unfold _capture_loop. rewrite E2, E3. apply Hnil.
Qed.

Lemma range_split k n :
  0 <= k < n -> exists later, range n = range k ++ k :: later.
Proof.
  intros H. unfold range.
  replace (Z.to_nat n) with (Z.to_nat k + S (Z.to_nat (n - k - 1)))%nat
    by lia.
  rewrite seq_app, map_app. simpl. rewrite Z2Nat.id by lia. eauto.
Qed.

Lemma range_succ k : 0 <= k -> range (k + 1) = range k ++ [k].
Proof.
  intros H. unfold range.
  replace (Z.to_nat (k + 1)) with (Z.to_nat k + 1)%nat by lia.
  rewrite seq_app, map_app. simpl. rewrite Z2Nat.id by lia. reflexivity.
Qed.

Lemma attempted_until env pre a later :
  Forall (fun a' => delivered (result (post (env a'))) = false) pre ->
  delivered (result (post (env a))) = true ->
  attempted env (pre ++ a :: later) = pre ++ [a].
Proof.
  intros Hpre Ha. induction Hpre as [|a' l Ha' _ IH]; simpl.
  - rewrite Ha. reflexivity.
  - rewrite Ha', IH. reflexivity.
Qed.

(** A delivery that fails [k] times, [k < max_retries], and is then answered
    200 makes exactly [k + 1] POSTs, all with the same body, and returns
    right after the one that delivered. *)
Theorem send_frame_retries_until_delivered answers now data h s k :
  _http_client s <> None ->
  0 <= k < max_retries (config s) ->
  (forall a, 0 <= a < k ->
             delivered (result (post (answers a))) = false) ->
  delivered (result (post (answers k))) = true ->
  outcome (_send_frame answers now data h s) = Ok tt
  /\ post_events (trace (_send_frame answers now data h s)) =
     map (fun a => (frame_payload (config s) (frame_count s) now data h,
                    result (post (answers a))))
         (range (k + 1))
  /\ List.length (post_events (trace (_send_frame answers now data h s))) =
     Z.to_nat (k + 1).
Proof.
  intros Hc Hk Hfail Hok.
  destruct (send_frame_spec answers now data h s) as (Ho & _ & _ & Hposts).
  destruct (_http_client s); [|contradiction].
  destruct (range_split k _ Hk) as (later & Hrange).
  rewrite Hrange, attempted_until in Hposts.
  - rewrite <- range_succ in Hposts by lia. rewrite Hposts.
    repeat split; [exact Ho|]. rewrite length_map. apply length_range.
  - apply Forall_forall. intros a Ha. apply Hfail, in_range, Ha.
  - exact Hok.
Qed.

Lemma Forall_interruption {A} (P : Event -> Prop) (w : Await A) s :
  P (Print LogStopping) -> P CloseBrowser -> Forall P (interruption w s).
Proof.
  intros H1 H2. unfold interruption, stop_events.
  destruct (stop_requested w), (browser s); repeat constructor; assumption.
Qed.

Ltac split_forall :=
  repeat match goal with
         | |- Forall _ [] => constructor
         | |- Forall _ (_ ++ _) => apply Forall_app; split
         | |- Forall _ (_ :: _) => constructor
         | |- Forall _ (interruption _ _) => apply Forall_interruption
         end.

Lemma send_attempt_wire env ep body attempt s :
  runs (send_attempt env ep body attempt) s (fun _ s' t =>
    config s' = config s
    /\ Forall (posts_are ep (bearer (config s)) body) t).
Proof.
  unfold send_attempt, http_post.
  repeat step; (split; [tidy; reflexivity|]); split_forall; simpl; auto.
Qed.

Lemma send_attempts_wire env ep body todo : forall s,
  runs (send_attempts env ep body todo) s (fun _ s' t =>
    config s' = config s
    /\ Forall (posts_are ep (bearer (config s)) body) t).
Proof.
  induction todo as [|attempt later IH]; intros s; simpl.
  - step. auto.
  - step. eapply runs_conseq; [apply send_attempt_wire|].
    intros o s1 t1 (Hc1 & F1).
    destruct o as [[|]|e|]; try (rewrite app_nil_r || idtac); auto.
    + step. rewrite app_nil_r. auto.
    + eapply runs_conseq; [apply IH|].
      intros o s2 t2 (Hc2 & F2). rewrite Hc1 in Hc2, F2.
      split; [exact Hc2|]. apply Forall_app. auto.
Qed.

Lemma send_frame_wire env now data h s :
  Forall (posts_are (stream_frame_endpoint (config s)) (bearer (config s))
            (frame_payload (config s) (frame_count s) now data h))
         (trace (_send_frame env now data h s)).
Proof.
  change (runs (_send_frame env now data h) s (fun _ _ t =>
    Forall (posts_are (stream_frame_endpoint (config s))
              (bearer (config s))
              (frame_payload (config s) (frame_count s) now data h)) t)).
  unfold _send_frame. step. step. step.
  - eapply runs_conseq; [apply send_attempts_wire|].
    intros o s1 t1 (_ & F). exact F.
  - step. constructor.
Qed.

Lemma capture_and_send_wire env s :
  Forall (on_the_wire (config s)) (trace (_capture_and_send env s)).
Proof.
  change (runs (_capture_and_send env) s (fun _ _ t =>
    Forall (on_the_wire (config s)) t)).
  unfold _capture_and_send.
  repeat step; try (split_forall; simpl; auto; fail).
  apply runs_here.
  match goal with
  | |- context [_send_frame ?a ?n ?d ?h ?s1] =>
      pose proof (send_frame_wire a n d h s1) as F;
      generalize dependent (trace (_send_frame a n d h s1))
  end.
  intros t F. simpl in F. autorewrite with streamer in F.
  split_forall; simpl; auto.
  eapply Forall_impl; [|exact F].
  intros [] H; simpl in *; auto.
  destruct H as (-> & -> & ->). eauto 6.
Qed.

(** Every POST of the capture loop goes to
    [{control_plane_url}/sessions/{session_id}/stream-frame] with the header
    [Authorization: Bearer {auth_token}], and its body is the payload of some
    captured bytes: their base64 text as [imageData], the first 16 characters
    of their digest as [frameHash], the viewport of the configuration as
    [width] and [height]. *)
Theorem capture_loop_wire_format envs s :
  Forall (on_the_wire (config s)) (trace (_capture_loop envs s)).
Proof.
  revert s. revert envs.
  apply (capture_loop_run_ind
           (fun s _ t => Forall (on_the_wire (config s)) t));
    [constructor|].
  intros env s r s' t Hr Er IH.
  destruct (capture_and_send_facts env s r Er) as (_ & Hc & _).
  revert IH. autorewrite with streamer. rewrite Hc. intros IH.
  subst r. split_forall; simpl; auto.
  apply capture_and_send_wire.
Qed.

Lemma frame_numbers_app t1 t2 :
  frame_numbers (t1 ++ t2) = frame_numbers t1 ++ frame_numbers t2.
Proof. unfold frame_numbers. rewrite post_events_app. apply map_app. Qed.

Lemma frame_numbers_iteration {A} t1 d (w : Await A) s1 t2 :
  frame_numbers (t1 ++ Sleep d :: interruption w s1 ++ t2) =
  frame_numbers t1 ++ frame_numbers t2.
Proof.
  rewrite frame_numbers_app. f_equal.
  change (Sleep d :: interruption w s1 ++ t2)
    with ([Sleep d] ++ interruption w s1 ++ t2).
  rewrite !frame_numbers_app. unfold frame_numbers at 1 2.
  rewrite post_events_interruption. reflexivity.
Qed.

(** The numbers a cycle posts: none, or the counter it started from plus
    one, as often as it made attempts. *)
Lemma capture_and_send_numbers env s r :
  r = _capture_and_send env s ->
  (frame_numbers (trace r) = [] /\ frame_count (final r) = frame_count s)
  \/ (frame_count (final r) = frame_count s + 1
      /\ Forall (fun n => n = frame_count s + 1) (frame_numbers (trace r))
      /\ (List.length (frame_numbers (trace r)) <=
          Z.to_nat (max_retries (config s)))%nat).
Proof.
  intros Er.
  destruct (capture_and_send_facts env s r Er)
    as (_ & _ & _ & _ & _ & Hn).
  unfold frame_numbers. destruct (new_frame s env) as [b|].
  - destruct Hn as (Hf & _ & ->). right. split; [exact Hf|]. split.
    + apply Forall_map.
      apply (frame_posts_numbers s env (frame_count s + 1) b).
    + rewrite length_map. unfold frame_posts.
      destruct (_http_client s); [|simpl; lia].
      rewrite length_map, <- length_range.
      generalize (range (max_retries (config s))). intros l.
      induction l as [|a l IH]; simpl; [lia|].
      destruct (delivered _); simpl; lia.
  - destruct Hn as (Hf & _ & ->). left. auto.
Qed.

Lemma StronglySorted_app_le l1 l2 :
  StronglySorted Z.le l1 -> StronglySorted Z.le l2 ->
  (forall x y, In x l1 -> In y l2 -> x <= y) ->
  StronglySorted Z.le (l1 ++ l2).
Proof.
  intros H1 H2 H. induction H1 as [|x l1 Hs IH Hx]; simpl; [exact H2|].
  constructor.
  - apply IH. intros x' y Hx' Hy. apply H; simpl; auto.
  - apply Forall_app. split; [exact Hx|].
    apply Forall_forall. intros y Hy. apply H; simpl; auto.
Qed.

Lemma StronglySorted_constant (c : Z) l :
  Forall (fun n => n = c) l -> StronglySorted Z.le l.
Proof.
  induction 1 as [|x l -> Hl IH]; constructor; [exact IH|].
  eapply Forall_impl; [|exact Hl]. simpl. intros n ->. lia.
Qed.

(** The frame numbers posted by the capture loop never go down (a retry
    repeats the number, a new frame takes a higher one), and they all lie
    above the counter the loop started from and up to the counter it ends
    on. *)
Theorem capture_loop_numbers_monotone envs s :
  frame_count s <= frame_count (final (_capture_loop envs s))
  /\ Forall (fun n => frame_count s < n <=
                      frame_count (final (_capture_loop envs s)))
            (frame_numbers (trace (_capture_loop envs s)))
  /\ StronglySorted Z.le (frame_numbers (trace (_capture_loop envs s))).
Proof.
  revert s. revert envs.
  apply (capture_loop_run_ind
           (fun s s' t =>
              frame_count s <= frame_count s'
              /\ Forall (fun n => frame_count s < n <= frame_count s')
                        (frame_numbers t)
              /\ StronglySorted Z.le (frame_numbers t))).
  - intros s. repeat split; [lia | constructor | constructor].
  - intros env s r s' t Hr Er (IH1 & IH2 & IH3).
    revert IH1 IH2. autorewrite with streamer. intros IH1 IH2.
    rewrite frame_numbers_iteration.
    destruct (capture_and_send_numbers env s r Er)
      as [(-> & Hf) | (Hf & Hnum & _)]; rewrite Hf in IH1, IH2.
    + simpl. auto.
    + split; [lia|]. split.
      * apply Forall_app. split.
        -- eapply Forall_impl; [|exact Hnum]. simpl. intros n ->. lia.
        -- eapply Forall_impl; [|exact IH2]. simpl. intros n Hn. lia.
      * apply StronglySorted_app_le.
        -- apply (StronglySorted_constant (frame_count s + 1)), Hnum.
        -- exact IH3.
        -- intros x y Hx Hy. rewrite Forall_forall in Hnum, IH2.
           rewrite (Hnum x Hx). specialize (IH2 y Hy). lia.
Qed.

Lemma count_occ_none (l : list Z) n :
  Forall (fun m => m <> n) l -> count_occ Z.eq_dec l n = 0%nat.
Proof.
  intros H. apply count_occ_not_In. intros Hin.
  rewrite Forall_forall in H. exact (H n Hin eq_refl).
Qed.

Lemma capture_loop_count_bound envs s n :
  (count_occ Z.eq_dec (frame_numbers (trace (_capture_loop envs s))) n <=
   Z.to_nat (max_retries (config s)))%nat.
Proof.
  cut (Forall (fun m => frame_count s < m)
              (frame_numbers (trace (_capture_loop envs s)))
       /\ (count_occ Z.eq_dec
             (frame_numbers (trace (_capture_loop envs s))) n <=
           Z.to_nat (max_retries (config s)))%nat); [tauto|].
  revert s. revert envs.
  apply (capture_loop_run_ind
           (fun s _ t =>
              Forall (fun m => frame_count s < m) (frame_numbers t)
              /\ (count_occ Z.eq_dec (frame_numbers t) n <=
                  Z.to_nat (max_retries (config s)))%nat)).
  - intros s. split; [constructor | simpl; lia].
  - intros env s r s' t Hr Er (IH1 & IH2).
    destruct (capture_and_send_facts env s r Er) as (_ & Hc & _).
    revert IH1 IH2. autorewrite with streamer. rewrite Hc. intros IH1 IH2.
    rewrite frame_numbers_iteration, count_occ_app.
    destruct (capture_and_send_numbers env s r Er)
      as [(-> & Hf) | (Hf & Hnum & Hlen)]; rewrite Hf in IH1.
    + simpl. auto.
    + split.
      * apply Forall_app. split.
        -- eapply Forall_impl; [|exact Hnum]. simpl. intros m ->. lia.
        -- eapply Forall_impl; [|exact IH1]. simpl. intros m Hm. lia.
      * destruct (Z.eq_dec n (frame_count s + 1)) as [-> | Hne].
        -- rewrite (count_occ_none (frame_numbers t)).
           ++ pose proof (count_occ_bound Z.eq_dec (frame_count s + 1)
                            (frame_numbers (trace r))). lia.
           ++ eapply Forall_impl; [|exact IH1]. simpl. intros m Hm. lia.
        -- rewrite (count_occ_none (frame_numbers (trace r))); [lia|].
           eapply Forall_impl; [|exact Hnum]. simpl. intros m ->. auto.
Qed.

(** No frame number is posted more than [max_retries] times by the capture
    loop: a frame is given up after that many attempts and its number is
    never taken again. *)
Theorem capture_loop_attempts_per_frame envs s n :
  (count_occ Z.eq_dec (frame_numbers (trace (_capture_loop envs s))) n <=
   Z.to_nat (max_retries (config s)))%nat.
Proof. apply capture_loop_count_bound. Qed.

#[local] Hint Rewrite sleeps_app @sleeps_interruption : streamer.










Lemma probe_event_not_streaming t :
  Forall probe_event t -> Forall (fun e => is_streaming e = false) t.
Proof.
  intros H. eapply Forall_impl; [|exact H].
  intros []; simpl; tauto.
Qed.

(** No screenshot is taken and no frame is posted by a run whose probing
    does not return [True], whose browser cannot be set up, or whose
    navigation fails. *)
Theorem no_streaming_without_navigation env s :
  outcome (_wait_for_target 60 (t0 env) (probes env) (started s)) <> Ok true
  \/ (exists e, result (launch env) = Raised e)
  \/ (exists e, result (new_page env) = Raised e)
  \/ (exists e, result (goto env) = Raised e) ->
  Forall (fun e => is_streaming e = false) (trace (start env s)).
Proof.
  unfold started. intros H.
  change (runs (start env) s (fun _ _ t =>
    Forall (fun e => is_streaming e = false) t)).
  unfold start. repeat step.
  destruct (wait_for_target_facts 60 (t0 env) (probes env)
              (set_http_client (Some Open) (set_running true s)) _ eq_refl)
    as (_ & _ & _ & F).
  apply probe_event_not_streaming in F.
  apply runs_here.
  destruct (outcome _) as [[|]|e|]; simpl negb; cbv iota;
    try (repeat step; split_forall; auto; fail).
  step. apply runs_async_with_playwright.
  repeat step; try (split_forall; auto; fail).
  destruct H as [H | [(e & H) | [(e & H) | (e & H)]]];
    congruence.
Qed.

Lemma ends_with_refl t : ends_with t t.
Proof. exists []. reflexivity. Qed.

Lemma ends_with_cons t e l : ends_with t l -> ends_with t (e :: l).
Proof. intros (b & ->). exists (e :: b). reflexivity. Qed.

Lemma ends_with_app t l1 l2 : ends_with t l2 -> ends_with t (l1 ++ l2).
Proof. intros (b & ->). exists (l1 ++ b). apply app_assoc. Qed.

Ltac find_end :=
  repeat first [ apply ends_with_refl
               | apply ends_with_cons
               | apply ends_with_app ].

Lemma capture_loop_keeps_client envs s :
  _http_client (final (_capture_loop envs s)) = _http_client s.
Proof.
  revert s. revert envs.
  apply (capture_loop_run_ind
           (fun s s' _ => _http_client s' = _http_client s)); [reflexivity|].
  intros env s r s' t Hr Er IH.
  destruct (capture_and_send_facts env s r Er) as (_ & _ & _ & Hc & _).
  rewrite IH. autorewrite with streamer. exact Hc.
Qed.

(** When the target answered, the browser was set up and the navigation
    succeeded, [start] never raises; when it returns, the capture loop has
    been ended by [stop()], the playwright context has been left and then the
    client closed, and nothing is captured or posted after that. *)
Theorem start_closes_client_after_loop env s :
  outcome (_wait_for_target 60 (t0 env) (probes env) (started s)) = Ok true ->
  result (launch env) = Returned tt ->
  result (new_page env) = Returned tt ->
  result (goto env) = Returned tt ->
  (forall e, outcome (start env s) <> Raise e)
  /\ (outcome (start env s) = Ok tt ->
      running (final (start env s)) = false
      /\ _http_client (final (start env s)) = Some Closed
      /\ exists after,
           ends_with (ExitPlaywright :: CloseClient :: after)
                     (trace (start env s))
           /\ Forall (fun e => is_streaming e = false) after).
Proof.
  unfold started. intros Hw Hl Hn Hg.
  change (runs (start env) s (fun o s' t =>
    (forall e, o <> Raise e)
    /\ (o = Ok tt ->
        running s' = false
        /\ _http_client s' = Some Closed
        /\ exists after,
             ends_with (ExitPlaywright :: CloseClient :: after) t
             /\ Forall (fun e => is_streaming e = false) after))).
  unfold start. repeat step.
  destruct (wait_for_target_facts 60 (t0 env) (probes env)
              (set_http_client (Some Open) (set_running true s)) _ eq_refl)
    as (_ & (_ & _ & _ & _ & Kc) & _).
  apply runs_here. rewrite Hw. simpl negb. cbv iota.
  step. apply runs_async_with_playwright.
  repeat first [rewrite Hl | rewrite Hn | rewrite Hg | step].
  apply runs_here.
  match goal with
  | |- context [_capture_loop (cycles env) ?s1] =>
      pose proof (capture_loop_of_exit _capture_and_send (cycles env) s1)
        as (Hnever & Hexit);
      pose proof (capture_loop_keeps_client (cycles env) s1) as Hclient;
      fold (_capture_loop (cycles env) s1) in Hnever, Hexit;
      generalize dependent (_capture_loop (cycles env) s1)
  end.
  intros loop Hnever Hexit Hclient.
  revert Hclient.
  repeat (autorewrite with streamer;
          unfold set_page, set_browser; cbn [_http_client]).
  rewrite Kc. simpl. intros Hclient.
  destruct (outcome loop) as [[]|e|] eqn:Ho.
  - repeat step; [|congruence].
    split; [discriminate|]. intros _. split; [|split].
    + simpl. rewrite running_interrupted, (Hexit eq_refl). reflexivity.
    + reflexivity.
    + exists (interruption (aclose env) (final loop)). split.
      * repeat (rewrite <- app_assoc || rewrite app_nil_r || cbn [app]).
        find_end.
      * apply Forall_interruption; reflexivity.
  - destruct (Hnever e eq_refl).
  - split; discriminate.
Qed.


(** The POSTs of a run are those of its capture loop, entered with the
    configuration and the counter [start] found. *)
Lemma start_posts_of_loop env s :
  post_events (trace (start env s)) = []
  \/ exists s1,
       config s1 = config s
       /\ frame_count s1 = frame_count s
       /\ post_events (trace (start env s)) =
          post_events (trace (_capture_loop (cycles env) s1)).
Proof.
  change (runs (start env) s (fun _ _ t =>
    post_events t = []
    \/ exists s1,
         config s1 = config s
         /\ frame_count s1 = frame_count s
         /\ post_events t =
            post_events (trace (_capture_loop (cycles env) s1)))).
  unfold start. repeat step.
  remember (_wait_for_target 60 (t0 env) (probes env)
              (set_http_client (Some Open) (set_running true s))) as r
    eqn:Er.
  destruct (wait_for_target_facts _ _ _ _ r Er) as (Hnr & K & _ & F).
  apply probe_event_no_post in F. destruct K as (Kc & _ & Kf & _).
  simpl in Kc, Kf. apply runs_here. rewrite <- Er.
  destruct (outcome r) as [[|]|e|]; simpl negb; cbv iota;
    try (tidy; rewrite ?F; auto; fail).
  - step. apply runs_async_with_playwright.
    repeat step; try (tidy; rewrite ?F; auto; fail).
    apply runs_here.
    match goal with
    | |- context [_capture_loop (cycles env) ?s1] =>
        destruct (outcome (_capture_loop (cycles env) s1));
        repeat step; right; exists s1;
        (split; [tidy; exact Kc|]);
        (split; [tidy; exact Kf|]);
        tidy; rewrite ?F; simpl; rewrite ?app_nil_r; reflexivity
    end.
  - repeat step. tidy. rewrite F. auto.
Qed.

(** A streamer started from the command line posts no frame number more than
    three times: [main] leaves [max_retries] at its default, for which there
    is no option. *)
Theorem main_attempts_per_frame args env n :
  (count_occ Z.eq_dec (frame_numbers (trace (main args env))) n <= 3)%nat.
Proof.
  unfold main, frame_numbers.
  destruct (start_posts_of_loop env
              (mkScreenshotStreamer (config_of_args args)))
    as [-> | (s1 & Hc & _ & ->)]; [simpl; lia|].
  pose proof (capture_loop_count_bound (cycles env) s1 n) as H.
  rewrite Hc in H. exact H.
Qed.

End Streamer.

(** * The claims on sample runs *)

(** Two 503 answers, then 200: three POSTs of frame 1, the last one
    delivered, and no sleep in between. *)
Example retry_then_success :
  map (fun p => (frameNumber (fst p), snd p))
      (post_events
         (trace (_capture_and_send sample_digest sample_encode
                   (capture frame_a (statuses [503; 503]))
                   (streaming sample_config)))) =
  [(1, Returned 503); (1, Returned 503); (1, Returned 200)].
Proof. reflexivity. Qed.

(** The second capture repeats the first, the third differs: two POSTs,
    numbered 1 and 2. *)
Example duplicate_consumes_no_number :
  frame_numbers
    (trace (start sample_digest sample_encode
              (run_of [capture frame_a (always (Returned 200));
                       capture frame_a (always (Returned 200));
                       last_capture frame_b (always (Returned 200))])
              (mkScreenshotStreamer sample_config))) = [1; 2].
Proof. reflexivity. Qed.

(** C1 as the specification words it ([max_retries + 1] attempts) fails: with
    the default [max_retries = 3] and a control plane that always answers 503,
    three POSTs are made, not four. *)
Lemma send_frame_attempts_counterexample :
  ~ (forall env now data h s,
        _http_client s <> None ->
        (forall a, delivered (result (post (env a))) = false) ->
        Z.of_nat (List.length
                    (post_events (trace (_send_frame env now data h s)))) =
        max_retries (config s) + 1).
Proof.
  intros H.
  specialize (H (always (Returned 503)) 0%Q "frame" "hash"
                (streaming sample_config)).
  assert (H' : Z.of_nat 3 = 3 + 1).
  { apply H; [discriminate | reflexivity]. }
  discriminate H'.
Qed.

Lemma send_frame_gives_up_witness :
  running (streaming sample_config) = true
  /\ List.length
       (post_events
          (trace (_capture_and_send sample_digest sample_encode
                    (capture frame_a (always (Returned 503)))
                    (streaming sample_config)))) = 3%nat.
Proof.
  split; [reflexivity|].
  destruct (send_frame_gives_up sample_digest sample_encode
              (capture frame_a (always (Returned 503))) []
              (streaming sample_config) frame_a)
    as (_ & _ & H & _).
  - reflexivity.
  - discriminate.
  - discriminate.
  - reflexivity.
  - reflexivity.
  - intros a _. reflexivity.
  - exact H.
Defined.

Lemma duplicate_capture_is_noop_witness :
  result (shot (capture frame_a (always (Returned 200)))) = Returned frame_a
  /\ frame_numbers
       (trace (_capture_loop sample_digest sample_encode
                 [capture frame_a (always (Returned 200));
                  capture frame_a (always (Returned 200));
                  last_capture frame_a (always (Returned 200))]
                 (streaming sample_config))) = [1]
  /\ post_events
       (trace (_capture_and_send sample_digest sample_encode
                 (capture frame_a (always (Returned 200)))
                 (set_last_frame_hash
                    (Some (frame_hash_of sample_digest frame_a))
                    (streaming sample_config)))) = [].
Proof.
  split; [reflexivity|]. split.
  - destruct (duplicate_capture_is_noop sample_digest sample_encode
                (capture frame_a (always (Returned 200)))
                [capture frame_a (always (Returned 200));
                 last_capture frame_a (always (Returned 200))]
                (streaming sample_config) frame_a eq_refl) as (_ & H).
    destruct H as (H & _).
    + reflexivity.
    + discriminate.
    + repeat constructor.
    + unfold frame_numbers. rewrite H. reflexivity.
  - destruct (duplicate_capture_is_noop sample_digest sample_encode
                (capture frame_a (always (Returned 200))) []
                (set_last_frame_hash
                   (Some (frame_hash_of sample_digest frame_a))
                   (streaming sample_config))
                frame_a eq_refl) as (H & _).
    apply H. reflexivity.
Defined.

(** Three distinct frames, every delivery answered with 200: three POSTs,
    numbered 1, 2, 3. *)
Lemma delivered_frame_numbers_witness :
  Forall (fun p => delivered (snd p) = true)
    (post_events
       (trace (start sample_digest sample_encode
                 (run_of [capture frame_a (always (Returned 200));
                          capture frame_b (always (Returned 200));
                          last_capture frame_c (always (Returned 200))])
                 (mkScreenshotStreamer sample_config))))
  /\ frame_numbers
       (trace (start sample_digest sample_encode
                 (run_of [capture frame_a (always (Returned 200));
                          capture frame_b (always (Returned 200));
                          last_capture frame_c (always (Returned 200))])
                 (mkScreenshotStreamer sample_config))) = [1; 2; 3].
Proof.
  assert (H : Forall (fun p => delivered (snd p) = true)
    (post_events
       (trace (start sample_digest sample_encode
                 (run_of [capture frame_a (always (Returned 200));
                          capture frame_b (always (Returned 200));
                          last_capture frame_c (always (Returned 200))])
                 (mkScreenshotStreamer sample_config))))).
  { vm_compute. repeat constructor. }
  split; [exact H|].
  rewrite (delivered_frame_numbers sample_digest sample_encode
             sample_config _ H).
  reflexivity.
Defined.

(** A frame given up after three failed attempts keeps number 1; the next
    frame is posted as number 2. *)
Lemma send_frame_keeps_counter_and_hash_witness :
  hash_eq (frame_hash_of sample_digest frame_a)
          (last_frame_hash (streaming sample_config)) = false
  /\ frame_numbers
       (trace (_capture_loop sample_digest sample_encode
                 [capture frame_a (always (Returned 503));
                  capture frame_a (always (Returned 200));
                  last_capture frame_b (always (Returned 200))]
                 (streaming sample_config))) = [1; 1; 1; 2]
  /\ Forall (fun p => 0 + 1 < frameNumber (fst p))
       (post_events
          (trace (_capture_loop sample_digest sample_encode
                    [capture frame_a (always (Returned 200));
                     last_capture frame_b (always (Returned 200))]
                    (interrupted
                       (pause (capture frame_a (always (Returned 503))))
                       (final (_capture_and_send sample_digest sample_encode
                                 (capture frame_a (always (Returned 503)))
                                 (streaming sample_config))))))).
Proof.
  split; [reflexivity|]. split; [reflexivity|].
  destruct (send_frame_keeps_counter_and_hash sample_digest sample_encode
              (capture frame_a (always (Returned 503)))
              (streaming sample_config) frame_a)
    as (_ & _ & _ & _ & H & _).
  - discriminate.
  - reflexivity.
  - reflexivity.
  - apply H.
Defined.

(** With [max_retries = 0] a new frame takes number 1 and is never posted. *)
Lemma zero_retries_sends_nothing_witness :
  max_retries (config (streaming (with_max_retries 0 sample_config))) = 0
  /\ post_events
       (trace (_capture_loop sample_digest sample_encode
                 [capture frame_a (always (Returned 200));
                  last_capture frame_b (always (Returned 200))]
                 (streaming (with_max_retries 0 sample_config)))) = []
  /\ frame_count
       (final (_capture_and_send sample_digest sample_encode
                 (capture frame_a (always (Returned 200)))
                 (streaming (with_max_retries 0 sample_config)))) = 1.
Proof.
  split; [reflexivity|].
  destruct (zero_retries_sends_nothing sample_digest sample_encode
              (capture frame_a (always (Returned 200)))
              [capture frame_a (always (Returned 200));
               last_capture frame_b (always (Returned 200))]
              (streaming (with_max_retries 0 sample_config)) frame_a
              eq_refl) as (_ & H1 & H2).
  split; [exact H2|].
  destruct H1 as (_ & H & _).
  - discriminate.
  - reflexivity.
  - reflexivity.
  - exact H.
Defined.

(** C5 at [max_retries = 3], [retry_delay = 1]: after a status other than 200
    the next POST follows with no sleep in between, whereas after a transport
    error the loop sleeps [retry_delay] first. *)
Theorem non_200_is_retried_without_delay :
  gaps_between is_post
    (trace (_send_frame (always (Returned 503)) 0 "frame" "hash"
              (streaming sample_config))) = [[]; []]
  /\ gaps_between is_post
       (trace (_send_frame (always (Raised (Exception "ConnectError")))
                 0 "frame" "hash" (streaming sample_config))) =
     [[1%Q]; [1%Q]].
Proof. split; reflexivity. Qed.

(** C6 as the specification words it fails on its last clause: [stop()] runs
    while the first probe is in flight, the probe is answered 200, and
    [_wait_for_target] returns [True]. *)
Lemma wait_for_target_stop_counterexample :
  ~ (forall envs s,
        In (Print LogStopping) (trace (_wait_for_target 60 0 envs s)) ->
        outcome (_wait_for_target 60 0 envs s) = Ok false).
Proof.
  intros H.
  specialize (H [ {| clock := 0; probe := resume_stopped (Returned 200);
                     nap := resume tt |} ]
                (started (mkScreenshotStreamer sample_config))).
  assert (H' : @Ok bool true = Ok false).
  { apply H. right. right. left. reflexivity. }
  discriminate H'.
Qed.

Lemma wait_for_target_contract_witness :
  outcome (_wait_for_target 60 0
             [probe_at 0 (Returned 503);
              probe_at 1 (Raised (Exception "ConnectError"));
              probe_at 2 (Returned 404)]
             (started (mkScreenshotStreamer sample_config))) = Ok true
  /\ outcome (_wait_for_target 60 0
                (probes run_probe_timeout)
                (started (mkScreenshotStreamer sample_config))) <> Pending
  /\ outcome (_wait_for_target 60 0
                [probe_at 0 (Returned 200)]
                (mkScreenshotStreamer sample_config)) = Ok false
  /\ sleeps (trace (_wait_for_target 60 0
                      [probe_at 0 (Returned 503);
                       probe_at 1 (Raised (Exception "ConnectError"));
                       probe_at 2 (Returned 404)]
                      (started (mkScreenshotStreamer sample_config)))) =
     [1%Q; 1%Q]
  /\ outcome (_wait_for_target 60 0
                (probes run_probe_timeout)
                (started (mkScreenshotStreamer sample_config))) = Ok false.
Proof.
  split; [|split; [|split; [|split]]].
  - apply (wait_for_target_contract 60 0
             [probe_at 0 (Returned 503);
              probe_at 1 (Raised (Exception "ConnectError"));
              probe_at 2 (Returned 404)]
             (started (mkScreenshotStreamer sample_config))).
    vm_compute. right. right. left. reflexivity.
  - apply (wait_for_target_contract 60 0 (probes run_probe_timeout)
             (started (mkScreenshotStreamer sample_config))).
    right. right. left. reflexivity.
  - apply (wait_for_target_contract 60 0 [probe_at 0 (Returned 200)]
             (mkScreenshotStreamer sample_config)).
    + reflexivity.
    + discriminate.
  - destruct (wait_for_target_contract 60 0
                [probe_at 0 (Returned 503);
                 probe_at 1 (Raised (Exception "ConnectError"));
                 probe_at 2 (Returned 404)]
                (started (mkScreenshotStreamer sample_config)))
      as (_ & _ & _ & _ & _ & _ & _ & _ & _ & H).
    destruct (H [probe_at 0 (Returned 503);
                 probe_at 1 (Raised (Exception "ConnectError"))]
                (probe_at 2 (Returned 404)) [] eq_refl eq_refl)
      as (Hfound & _).
    + repeat constructor.
    + destruct (Hfound eq_refl eq_refl) as (_ & _ & Hs). exact Hs.
  - destruct (wait_for_target_contract 60 0 (probes run_probe_timeout)
                (started (mkScreenshotStreamer sample_config)))
      as (_ & _ & _ & _ & _ & _ & _ & _ & _ & H).
    destruct (H [probe_at 0 (Returned 503); probe_at 30 (Returned 503)]
                (probe_at 61 (Returned 503)) [] eq_refl eq_refl)
      as (_ & Hlate).
    + repeat constructor.
    + destruct (Hlate eq_refl) as (Ho & _). exact Ho.
Defined.



(** C8 as the specification words it fails: the probing times out and the
    process exits with status 0. *)
Lemma probe_timeout_exit_counterexample :
  ~ (forall args env,
        outcome (_wait_for_target 60 (t0 env) (probes env)
                   (started (mkScreenshotStreamer (config_of_args args)))) =
        Ok false ->
        exists code,
          exit_status (main sample_digest sample_encode args env) = Some code
          /\ code <> 0).
Proof.
  intros H.
  destruct (H sample_args run_probe_timeout eq_refl) as (code & Hc & Hnz).
  vm_compute in Hc. congruence.
Qed.

Lemma probe_timeout_exits_normally_witness :
  outcome (_wait_for_target 60 (t0 run_probe_timeout)
             (probes run_probe_timeout)
             (started (mkScreenshotStreamer (config_of_args sample_args)))) =
  Ok false
  /\ exit_status (main sample_digest sample_encode sample_args
                    run_probe_timeout) = Some 0.
Proof.
  split; [reflexivity|].
  apply (probe_timeout_exits_normally sample_digest sample_encode
           sample_args run_probe_timeout).
  reflexivity.
Defined.

(** C9 on the two early returns of [start]: after a probe timeout and after a
    navigation failure the function returns with the client still open and
    [aclose()] never called; only the path through the capture loop closes
    it. *)
Theorem early_return_leaves_client_open :
  (outcome (start sample_digest sample_encode run_probe_timeout
              (mkScreenshotStreamer sample_config)) = Ok tt
   /\ _http_client
        (final (start sample_digest sample_encode run_probe_timeout
                  (mkScreenshotStreamer sample_config))) = Some Open
   /\ ~ In CloseClient
        (trace (start sample_digest sample_encode run_probe_timeout
                  (mkScreenshotStreamer sample_config))))
  /\ (outcome (start sample_digest sample_encode run_navigation_failure
                 (mkScreenshotStreamer sample_config)) = Ok tt
      /\ _http_client
           (final (start sample_digest sample_encode run_navigation_failure
                     (mkScreenshotStreamer sample_config))) = Some Open
      /\ ~ In CloseClient
           (trace (start sample_digest sample_encode run_navigation_failure
                     (mkScreenshotStreamer sample_config))))
  /\ (outcome (start sample_digest sample_encode
                 (run_of [last_capture frame_a (always (Returned 200))])
                 (mkScreenshotStreamer sample_config)) = Ok tt
      /\ _http_client
           (final (start sample_digest sample_encode
                     (run_of [last_capture frame_a (always (Returned 200))])
                     (mkScreenshotStreamer sample_config))) = Some Closed).
Proof.
  repeat split; try reflexivity.
  - vm_compute. intuition discriminate.
  - vm_compute. intuition discriminate.
Qed.

(** * The one-shot utilities: properties *)

Section GetElementAtPointFacts.

Import Script.

Variable int : string -> option Z.

Ltac run_script :=
  repeat match goal with
         | u : unit |- _ => destruct u
         end;
  cbv [GetElementAtPoint.main GetElementAtPoint.inspect with_playwright
       try_finally try_except bind call say ret fst snd app exit_status
       stdout_lines stderr_lines flat_map
       GetElementAtPoint.installed GetElementAtPoint.launch
       GetElementAtPoint.new_context GetElementAtPoint.new_page
       GetElementAtPoint.goto GetElementAtPoint.evaluate
       GetElementAtPoint.context_close GetElementAtPoint.browser_close].


(** [get_element_at_point.py] launches a browser only after its arguments
    passed and playwright was imported; whenever the launch returned,
    [browser.close()] is called exactly once, after every other call and
    just before the playwright context is left, also when a call in between
    raised. *)
Theorem get_element_browser_lifecycle argv env :
  (In Launch (fst (GetElementAtPoint.main int argv env)) <->
   (4 <= List.length argv)%nat
   /\ int (nth 2 argv "") <> None /\ int (nth 3 argv "") <> None
   /\ GetElementAtPoint.installed env = true)
  /\ (In BrowserClose (fst (GetElementAtPoint.main int argv env)) <->
      In Launch (fst (GetElementAtPoint.main int argv env))
      /\ GetElementAtPoint.launch env = Returned tt)
  /\ (In BrowserClose (fst (GetElementAtPoint.main int argv env)) ->
      exists before,
        fst (GetElementAtPoint.main int argv env) =
        before ++ [BrowserClose; StopPlaywright]
        /\ ~ In BrowserClose before).
Proof.
  destruct env as [inst l nc np g ev cc bc].
  unfold GetElementAtPoint.main.
  destruct (Nat.ltb_spec (List.length argv) 4) as [Hlen|Hlen].
  { run_script. simpl. repeat split; try tauto; intros; try lia;
      intuition discriminate. }
  destruct (int (nth 2 argv "")) as [x|].
  2: { run_script. simpl. repeat split; try tauto; intros;
         intuition (discriminate || congruence). }
  destruct (int (nth 3 argv "")) as [y|].
  2: { run_script. simpl. repeat split; try tauto; intros;
         intuition (discriminate || congruence). }
  destruct inst.
  2: { run_script. simpl. repeat split; try tauto; intros;
         intuition (discriminate || congruence). }
  destruct l as [[]|el], nc as [[]|enc], np as [[]|enp], g as [[]|eg],
           ev as [[el'|]|eev], cc as [[]|ecc], bc as [[]|ebc];
    run_script;
    (split; [split; [intros _; repeat split; (discriminate || assumption)
                    | intros _; simpl; tauto]|]);
    (split; [split; [intros H; simpl in H; split;
                       [simpl; tauto
                       | try reflexivity; intuition discriminate]
                    | intros (_ & H); try discriminate H; simpl; tauto]|]);
    intros H; try (simpl in H; intuition discriminate; fail);
    match goal with
    | |- exists b, ?t = _ /\ _ => exists (firstn (List.length t - 2) t)
    end;
    (split; [reflexivity | simpl; intuition discriminate]).
Qed.

(** The viewport of [get_element_at_point.py] is 1280x720 unless both
    optional arguments are given: a fifth argument alone is ignored, a width
    that does not parse leaves both defaults, and a width that parses is kept
    even when the height does not parse (the height then stays 720).  The
    browser context is created with that viewport. *)
Theorem get_element_viewport argv env :
  ((List.length argv < 6)%nat ->
   GetElementAtPoint.viewport int argv = (1280, 720))
  /\ (int (nth 4 argv "") = None ->
      GetElementAtPoint.viewport int argv = (1280, 720))
  /\ (forall w,
        (6 <= List.length argv)%nat ->
        int (nth 4 argv "") = Some w ->
        GetElementAtPoint.viewport int argv =
        (w, match int (nth 5 argv "") with Some h => h | None => 720 end))
  /\ (forall w h,
        In (NewContext w h) (fst (GetElementAtPoint.main int argv env)) ->
        (w, h) = GetElementAtPoint.viewport int argv).
Proof.
  split; [|split; [|split]].
  - intros H. unfold GetElementAtPoint.viewport.
    destruct (Nat.leb_spec 6 (List.length argv)); [lia | reflexivity].
  - intros H. unfold GetElementAtPoint.viewport. rewrite H.
    destruct (6 <=? List.length argv)%nat; reflexivity.
  - intros w Hlen Hw. unfold GetElementAtPoint.viewport. rewrite Hw.
    destruct (Nat.leb_spec 6 (List.length argv)); [|lia].
    destruct (int (nth 5 argv "")); reflexivity.
  - intros w h. destruct env as [inst l nc np g ev cc bc].
    unfold GetElementAtPoint.main. cbv zeta.
    generalize (GetElementAtPoint.viewport int argv). intros [vw vh].
    destruct (List.length argv <? 4)%nat;
      [run_script; simpl; intuition discriminate|].
    destruct (int (nth 2 argv ""));
      [|run_script; simpl; intuition discriminate].
    destruct (int (nth 3 argv ""));
      [|run_script; simpl; intuition discriminate].
    destruct inst; [|run_script; simpl; intuition discriminate].
    destruct l as [[]|el], nc as [[]|enc], np as [[]|enp], g as [[]|eg],
             ev as [[el'|]|eev], cc as [[]|ecc], bc as [[]|ebc];
      run_script; simpl; intuition (discriminate || congruence).
Qed.

End GetElementAtPointFacts.

Section TakeScreenshotFacts.

Import Script.

Ltac run_shot :=
  repeat match goal with
         | u : unit |- _ => destruct u
         end;
  cbv [TakeScreenshot.main TakeScreenshot.ended TakeScreenshot.exit_status
       with_playwright try_finally try_except bind call
       say ret fst snd app stdout_lines stderr_lines flat_map
       TakeScreenshot.installed TakeScreenshot.launch
       TakeScreenshot.new_context TakeScreenshot.new_page
       TakeScreenshot.goto TakeScreenshot.screenshot
       TakeScreenshot.context_close TakeScreenshot.browser_close].

(** The script once [parse_args()] has returned the namespace. *)
Lemma take_screenshot_parsed args env :
  (snd (TakeScreenshot.main (TakeScreenshot.Namespace args) env) =
   TakeScreenshot.Returns 0 <->
   TakeScreenshot.installed env = true
   /\ TakeScreenshot.launch env = Returned tt
   /\ TakeScreenshot.new_context env = Returned tt
   /\ TakeScreenshot.new_page env = Returned tt
   /\ TakeScreenshot.goto env = Returned tt
   /\ TakeScreenshot.screenshot env = Returned tt
   /\ TakeScreenshot.context_close env = Returned tt
   /\ TakeScreenshot.browser_close env = Returned tt)
  /\ (snd (TakeScreenshot.main (TakeScreenshot.Namespace args) env) =
      TakeScreenshot.Returns 0
      \/ TakeScreenshot.exit_status
           (TakeScreenshot.main (TakeScreenshot.Namespace args) env) = 1)
  /\ ((exists path full,
         In (Screenshot path full)
            (fst (TakeScreenshot.main (TakeScreenshot.Namespace args) env)))
      <->
      TakeScreenshot.installed env = true
      /\ TakeScreenshot.launch env = Returned tt
      /\ TakeScreenshot.new_context env = Returned tt
      /\ TakeScreenshot.new_page env = Returned tt
      /\ TakeScreenshot.goto env = Returned tt)
  /\ (In BrowserClose
         (fst (TakeScreenshot.main (TakeScreenshot.Namespace args) env)) <->
      TakeScreenshot.installed env = true
      /\ TakeScreenshot.launch env = Returned tt)
  /\ (In BrowserClose
         (fst (TakeScreenshot.main (TakeScreenshot.Namespace args) env)) ->
      exists before,
        fst (TakeScreenshot.main (TakeScreenshot.Namespace args) env) =
        before ++ [BrowserClose; StopPlaywright]
        /\ ~ In BrowserClose before)
  /\ stdout_lines
       (fst (TakeScreenshot.main (TakeScreenshot.Namespace args) env)) = [].
Proof.
  destruct env as [inst l nc np g sc cc bc].
  destruct inst.
  2: { run_shot. simpl.
       repeat split; try (intros; intuition discriminate); auto.
       all: destruct H as (? & ? & [Hin|[]]); discriminate Hin. }
  destruct l as [[]|el], nc as [[]|enc], np as [[]|enp], g as [[]|eg],
           sc as [[]|esc], cc as [[]|ecc], bc as [[]|ebc];
    run_shot;
    (split; [split; [try discriminate; intros _; repeat split; reflexivity
                    | try reflexivity; intros H; decompose [and] H;
                      discriminate]|]);
    (split; [auto|]);
    (split; [split; [intros (? & ? & H); simpl in H;
                     first [intuition discriminate
                           | repeat split; reflexivity]
                    | intros H;
                      first [ decompose [and] H; discriminate
                            | eexists; eexists; simpl; auto 20 ]]|]);
    (split; [split; [intros H; simpl in H;
                     first [intuition discriminate
                           | repeat split; reflexivity]
                    | intros H;
                      first [ decompose [and] H; discriminate
                            | simpl; auto 20 ]]|]);
    (split; [|reflexivity]);
    intros H; try (simpl in H; intuition discriminate; fail);
    match goal with
    | |- exists b, ?t = _ /\ _ => exists (firstn (List.length t - 2) t)
    end;
    (split; [reflexivity | simpl; intuition discriminate]).
Qed.

(** Playwright is started exactly when the import succeeded. *)
Lemma take_screenshot_starts args env :
  In StartPlaywright
     (fst (TakeScreenshot.main (TakeScreenshot.Namespace args) env)) <->
  TakeScreenshot.installed env = true.
Proof.
  destruct env as [inst l nc np g sc cc bc]. destruct inst.
  - split; [reflexivity|]. intros _.
    destruct l as [[]|el], nc as [[]|enc], np as [[]|enp], g as [[]|eg],
             sc as [[]|esc], cc as [[]|ecc], bc as [[]|ebc];
      run_shot; left; reflexivity.
  - run_shot. simpl. split; [intuition discriminate | discriminate].
Qed.

(** [take_screenshot.py] ends with status 0 exactly when [parse_args()]
    printed the help, or returned the namespace, playwright is installed and
    every call of the browser API returned; with status 2 exactly when
    [parse_args()] refused the command line; and with status 1 otherwise.
    Playwright is started only once the arguments are parsed and the import
    succeeded; the screenshot is asked for only once the navigation
    returned; the browser is closed whenever its launch returned, once, as
    the last call before the playwright context is left; and stdout is
    written to only by the help of argparse. *)
Theorem take_screenshot_outcome parsed env :
  (snd (TakeScreenshot.main parsed env) = TakeScreenshot.Returns 0 <->
   (exists args, parsed = TakeScreenshot.Namespace args)
   /\ TakeScreenshot.installed env = true
   /\ TakeScreenshot.launch env = Returned tt
   /\ TakeScreenshot.new_context env = Returned tt
   /\ TakeScreenshot.new_page env = Returned tt
   /\ TakeScreenshot.goto env = Returned tt
   /\ TakeScreenshot.screenshot env = Returned tt
   /\ TakeScreenshot.context_close env = Returned tt
   /\ TakeScreenshot.browser_close env = Returned tt)
  /\ (TakeScreenshot.exit_status (TakeScreenshot.main parsed env) = 0 <->
      snd (TakeScreenshot.main parsed env) = TakeScreenshot.Returns 0
      \/ exists text, parsed = TakeScreenshot.Help text)
  /\ (TakeScreenshot.exit_status (TakeScreenshot.main parsed env) = 2 <->
      exists usage error, parsed = TakeScreenshot.Refused usage error)
  /\ (TakeScreenshot.exit_status (TakeScreenshot.main parsed env) = 0
      \/ TakeScreenshot.exit_status (TakeScreenshot.main parsed env) = 1
      \/ TakeScreenshot.exit_status (TakeScreenshot.main parsed env) = 2)
  /\ (In StartPlaywright (fst (TakeScreenshot.main parsed env)) <->
      (exists args, parsed = TakeScreenshot.Namespace args)
      /\ TakeScreenshot.installed env = true)
  /\ ((exists path full,
         In (Screenshot path full) (fst (TakeScreenshot.main parsed env))) <->
      (exists args, parsed = TakeScreenshot.Namespace args)
      /\ TakeScreenshot.installed env = true
      /\ TakeScreenshot.launch env = Returned tt
      /\ TakeScreenshot.new_context env = Returned tt
      /\ TakeScreenshot.new_page env = Returned tt
      /\ TakeScreenshot.goto env = Returned tt)
  /\ (In BrowserClose (fst (TakeScreenshot.main parsed env)) <->
      (exists args, parsed = TakeScreenshot.Namespace args)
      /\ TakeScreenshot.installed env = true
      /\ TakeScreenshot.launch env = Returned tt)
  /\ (In BrowserClose (fst (TakeScreenshot.main parsed env)) ->
      exists before,
        fst (TakeScreenshot.main parsed env) =
        before ++ [BrowserClose; StopPlaywright]
        /\ ~ In BrowserClose before)
  /\ (stdout_lines (fst (TakeScreenshot.main parsed env)) <> [] <->
      exists text, parsed = TakeScreenshot.Help text).
Proof.
  destruct parsed as [args|text|usage error].
  - destruct (take_screenshot_parsed args env)
      as (H0 & H01 & Hshot & Hclose & Hlast & Hout).
    assert (Hn : exists a, TakeScreenshot.Namespace args =
                           TakeScreenshot.Namespace a) by eauto.
    pose proof (take_screenshot_starts args env) as Hstart.
    assert (H2 : TakeScreenshot.exit_status
                   (TakeScreenshot.main (TakeScreenshot.Namespace args) env)
                 <> 2).
    { destruct H01 as [H | H].
      - unfold TakeScreenshot.exit_status. rewrite H. discriminate.
      - rewrite H. discriminate. }
    assert (Hzero :
      TakeScreenshot.exit_status
        (TakeScreenshot.main (TakeScreenshot.Namespace args) env) = 0 <->
      snd (TakeScreenshot.main (TakeScreenshot.Namespace args) env) =
      TakeScreenshot.Returns 0).
    { split.
      - intros H. destruct H01 as [H' | H']; [exact H'|].
        rewrite H' in H. discriminate.
      - intros H. unfold TakeScreenshot.exit_status. rewrite H.
        reflexivity. }
    repeat match goal with |- _ /\ _ => split end.
    + rewrite H0. tauto.
    + rewrite Hzero. split; [auto|]. intros [H | (? & [=])]. exact H.
    + split; [contradiction | intros (? & ? & [=])].
    + destruct H01 as [H | H]; [left; apply Hzero, H | right; left; exact H].
    + rewrite Hstart. tauto.
    + rewrite Hshot. tauto.
    + rewrite Hclose. tauto.
    + exact Hlast.
    + rewrite Hout. split; [contradiction | intros (? & [=])].
  - cbv [TakeScreenshot.main TakeScreenshot.exit_status fst snd
         stdout_lines flat_map app].
    repeat match goal with |- _ /\ _ => split end.
    + split; [discriminate | intros ((? & [=]) & _)].
    + split; [intros _; right; eauto | reflexivity].
    + split; [discriminate | intros (? & ? & [=])].
    + left; reflexivity.
    + split; [intros [H|[]]; discriminate | intros ((? & [=]) & _)].
    + split; [intros (? & ? & [H|[]]); discriminate
             | intros ((? & [=]) & _)].
    + split; [intros [H|[]]; discriminate | intros ((? & [=]) & _)].
    + intros [H|[]]; discriminate.
    + split; [eauto | discriminate].
  - cbv [TakeScreenshot.main TakeScreenshot.exit_status fst snd
         stdout_lines flat_map app].
    repeat match goal with |- _ /\ _ => split end.
    + split; [discriminate | intros ((? & [=]) & _)].
    + split; [discriminate | intros [[=] | (? & [=])]].
    + split; [eauto | reflexivity].
    + right; right; reflexivity.
    + split; [intros [H|[H|[]]]; discriminate | intros ((? & [=]) & _)].
    + split; [intros (? & ? & [H|[H|[]]]); discriminate
             | intros ((? & [=]) & _)].
    + split; [intros [H|[H|[]]]; discriminate | intros ((? & [=]) & _)].
    + intros [H|[H|[]]]; discriminate.
    + split; [intros H; contradiction H; reflexivity | intros (? & [=])].
Qed.

End TakeScreenshotFacts.

Section ElementScriptFacts.

Import ElementScript.

Variable toLowerCase : string -> string.
Variable split_whitespace : string -> list string.

Lemma Forall_firstn {A} (P : A -> Prop) n (l : list A) :
  Forall P l -> Forall P (firstn n l).
Proof.
  intros H. revert n. induction H as [|a l Ha _ IH]; intros [|n]; simpl;
    constructor; auto.
Qed.

(** A segment of the selector shows at most two classes; each of them is a
    token of the class string, is not empty and does not start with an
    underscore; an element whose [className] is not a string shows none. *)
Theorem shown_classes_are_usable n :
  (List.length (shown_classes split_whitespace n) <= 2)%nat
  /\ Forall (fun c => c <> ""
                      /\ String.prefix "_" c = false
                      /\ exists cls, className n = Some cls
                                     /\ In c (split_whitespace cls))
            (shown_classes split_whitespace n)
  /\ (className n = None -> shown_classes split_whitespace n = []).
Proof.
  unfold shown_classes. destruct (className n) as [cls|].
  - destruct (String.eqb cls "").
    + split; [simpl; lia | split; [constructor | discriminate]].
    + split; [apply firstn_le_length | split; [|discriminate]].
      apply Forall_firstn, Forall_forall. intros c Hc.
      apply filter_In in Hc. destruct Hc as (Hin & Hu).
      unfold usable_class in Hu. apply andb_prop in Hu.
      destruct Hu as (Hne & Hpre).
      apply negb_true_iff in Hne, Hpre. apply String.eqb_neq in Hne.
      eauto.
  - split; [simpl; lia | split; [constructor | reflexivity]].
Qed.

Lemma same_tag_refl n : same_tag n n = true.
Proof. apply String.eqb_refl. Qed.

(** When a segment gets a [:nth-of-type(k)], the parent has at least two
    children with the tag of the element, and [k] is the position of the
    element among them, counted from 1. *)
Theorem nth_of_type_is_a_position l k :
  nth_of_type l = Some k ->
  exists before after,
    siblings l = Some (before, after)
    /\ k = S (List.length (filter (same_tag (node l)) before))
    /\ (2 <= List.length
              (filter (same_tag (node l)) (before ++ node l :: after)))%nat
    /\ (1 <= k <= List.length
                    (filter (same_tag (node l))
                            (before ++ node l :: after)))%nat.
Proof.
  unfold nth_of_type. destruct (siblings l) as [[before after]|];
    [|discriminate].
  destruct (1 <? List.length (before ++ node l :: after))%nat;
    [|discriminate].
  destruct (Nat.ltb_spec 1
              (List.length
                 (filter (same_tag (node l)) (before ++ node l :: after))))
    as [Hsame|Hsame]; [|discriminate].
  intros [= <-]. exists before, after. repeat split; try lia.
  rewrite filter_app, length_app. simpl. rewrite same_tag_refl. simpl. lia.
Qed.

Lemma first_component_clean nodes info :
  first_component nodes = Some info ->
  name info <> ""
  /\ Forall (fun entry => fst entry <> "children"
                          /\ snd entry <> JsFunction
                          /\ snd entry <> JsObject)
            (props info)
  /\ exists fiber,
       In fiber nodes
       /\ forall entry,
            In entry (props info) ->
            exists entries,
              memoizedProps fiber = Some entries /\ In entry entries.
Proof.
  induction nodes as [|fiber up IH]; [discriminate|]. simpl.
  destruct (fiber_type fiber) as [displayName name'| |].
  - intros [= <-]. simpl. split; [|split].
    + unfold component_name.
      destruct (String.eqb_spec displayName ""); simpl; [|assumption].
      destruct (String.eqb_spec name' ""); simpl; [discriminate|assumption].
    + apply Forall_forall. intros [key v] Hin.
      apply filter_In in Hin. destruct Hin as (_ & Hkeep).
      apply negb_true_iff in Hkeep. unfold skipped_prop in Hkeep.
      apply orb_false_elim in Hkeep. destruct Hkeep as (Hk & Hv).
      simpl in *. apply String.eqb_neq in Hk.
      repeat split; [assumption | |]; intros ->; discriminate.
    + exists fiber. split; [left; reflexivity|]. intros entry Hin.
      apply filter_In in Hin. destruct Hin as (Hin & _).
      destruct (memoizedProps fiber) as [entries|]; [eauto | destruct Hin].
  - intros H. destruct (IH H) as (H1 & H2 & fiber' & Hin & H3).
    repeat split; try assumption. exists fiber'. split; [right|]; assumption.
  - intros H. destruct (IH H) as (H1 & H2 & fiber' & Hin & H3).
    repeat split; try assumption. exists fiber'. split; [right|]; assumption.
Qed.

(** What [getReactInfo] reports about a component has a name that is not
    empty, and props that are entries of the [memoizedProps] of one fiber of
    the chain, without [children], without functions and without objects. *)
Theorem react_info_is_plain t info :
  getReactInfo t = Some info ->
  name info <> ""
  /\ Forall (fun entry => fst entry <> "children"
                          /\ snd entry <> JsFunction
                          /\ snd entry <> JsObject)
            (props info)
  /\ exists nodes fiber,
       fibers t = Some nodes
       /\ In fiber nodes
       /\ forall entry,
            In entry (props info) ->
            exists entries,
              memoizedProps fiber = Some entries /\ In entry entries.
Proof.
  unfold getReactInfo. destruct (fibers t) as [nodes|]; [|discriminate].
  intros H. destruct (first_component_clean nodes info H)
    as (H1 & H2 & fiber & Hin & H3).
  repeat split; try assumption. exists nodes, fiber. auto.
Qed.

Lemma length_substring_0 n : forall s,
  String.length (substring 0 n s) = Nat.min n (String.length s).
Proof.
  induction n as [|n IH]; intros [|c s]; simpl; auto.
Qed.

(** The script answers [null] exactly when there is no element at the
    point.  The text it reports is never empty and never longer than 200
    characters: it is the beginning of [innerText], and it is missing when
    [innerText] is empty; the tag name is reported in lower case. *)
Theorem element_text_is_bounded el :
  (get_element toLowerCase split_whitespace el = None <-> el = None)
  /\ forall t info,
       el = Some t ->
       get_element toLowerCase split_whitespace el = Some info ->
       element_tag info = toLowerCase (tagName (element t))
       /\ match text info with
          | Some s =>
              (0 < String.length s <= 200)%nat
              /\ String.prefix s (innerText t) = true
          | None => innerText t = ""
          end.
Proof.
  split.
  - destruct el; simpl; split; congruence.
  - intros t info -> [= <-]. simpl. split; [reflexivity|].
    destruct (String.eqb_spec (innerText t) "") as [He|Hne]; [exact He|].
    rewrite length_substring_0. split.
    + destruct (innerText t); [congruence | cbn [String.length]; lia].
    + generalize 200%nat. generalize (innerText t). clear.
      induction s as [|c s IH]; intros [|n]; simpl; try reflexivity.
      destruct (Ascii.ascii_dec c c); [apply IH | congruence].
Qed.

End ElementScriptFacts.

(** * The further properties on sample inputs *)

(** Two 503 answers, then 200: three POSTs. *)
Lemma send_frame_retries_until_delivered_witness :
  _http_client (streaming sample_config) <> None
  /\ List.length
       (post_events
          (trace (_send_frame (statuses [503; 503]) 0 "frame" "hash"
                    (streaming sample_config)))) = 3%nat.
Proof.
  split; [discriminate|].
  destruct (send_frame_retries_until_delivered
              (statuses [503; 503]) 0 "frame" "hash"
              (streaming sample_config) 2) as (_ & _ & H).
  - discriminate.
  - simpl. lia.
  - intros a Ha. assert (Ea : a = 0 \/ a = 1) by lia.
    destruct Ea as [-> | ->]; reflexivity.
  - reflexivity.
  - exact H.
Defined.


Lemma no_streaming_without_navigation_witness :
  (exists e, result (goto run_navigation_failure) = Raised e)
  /\ Forall (fun e => is_streaming e = false)
       (trace (start sample_digest sample_encode run_navigation_failure
                 (mkScreenshotStreamer sample_config))).
Proof.
  split; [eexists; reflexivity|].
  apply no_streaming_without_navigation.
  right. right. right. eexists. reflexivity.
Defined.

Lemma start_closes_client_after_loop_witness :
  outcome (start sample_digest sample_encode
             (run_of [last_capture frame_a (always (Returned 200))])
             (mkScreenshotStreamer sample_config)) = Ok tt
  /\ _http_client
       (final (start sample_digest sample_encode
                 (run_of [last_capture frame_a (always (Returned 200))])
                 (mkScreenshotStreamer sample_config))) = Some Closed.
Proof.
  split; [reflexivity|].
  destruct (start_closes_client_after_loop sample_digest sample_encode
              (run_of [last_capture frame_a (always (Returned 200))])
              (mkScreenshotStreamer sample_config))
    as (_ & H).
  - reflexivity.
  - reflexivity.
  - reflexivity.
  - reflexivity.
  - destruct H as (_ & H & _); [reflexivity | exact H].
Defined.



Lemma get_element_browser_lifecycle_witness :
  GetElementAtPoint.launch sample_page = Returned tt
  /\ In Script.BrowserClose
        (fst (GetElementAtPoint.main sample_int sample_argv sample_page)).
Proof.
  split; [reflexivity|].
  destruct (get_element_browser_lifecycle sample_int sample_argv sample_page)
    as (Hl & Hc & _).
  apply Hc. split; [|reflexivity].
  apply Hl. repeat split; try reflexivity; try (simpl; lia);
    vm_compute; discriminate.
Defined.

(** [800 tall]: the width is kept, the height stays 720. *)
Lemma get_element_viewport_witness :
  sample_int (nth 4 sample_argv_viewport EmptyString) = Some 800
  /\ sample_int (nth 5 sample_argv_viewport EmptyString) = None
  /\ GetElementAtPoint.viewport sample_int sample_argv_viewport = (800, 720).
Proof.
  split; [reflexivity|]. split; [reflexivity|].
  destruct (get_element_viewport sample_int sample_argv_viewport sample_page)
    as (_ & _ & H & _).
  apply (H 800); [simpl; lia | reflexivity].
Defined.

Lemma take_screenshot_outcome_witness :
  TakeScreenshot.installed sample_shot = true
  /\ snd (TakeScreenshot.main (TakeScreenshot.Namespace sample_shot_args)
            sample_shot) = TakeScreenshot.Returns 0
  /\ TakeScreenshot.exit_status
       (TakeScreenshot.main
          (TakeScreenshot.Refused "usage: take_screenshot.py url output"
             "the following arguments are required: url, output")
          sample_shot) = 2.
Proof.
  split; [reflexivity|]. split.
  - apply (proj1 (take_screenshot_outcome
                    (TakeScreenshot.Namespace sample_shot_args) sample_shot)).
    split; [eexists; reflexivity|]. repeat split; reflexivity.
  - apply (take_screenshot_outcome
             (TakeScreenshot.Refused "usage: take_screenshot.py url output"
                "the following arguments are required: url, output")
             sample_shot).
    eexists. eexists. reflexivity.
Defined.

(** The second of three buttons. *)
Lemma nth_of_type_is_a_position_witness :
  ElementScript.nth_of_type sample_level = Some 2%nat
  /\ exists before after,
       ElementScript.siblings sample_level = Some (before, after)
       /\ (1 <= 2 <= List.length
                       (filter (ElementScript.same_tag
                                  (ElementScript.node sample_level))
                               (before ++ ElementScript.node sample_level
                                       :: after)))%nat.
Proof.
  split; [reflexivity|].
  destruct (nth_of_type_is_a_position sample_level 2 eq_refl)
    as (before & after & Hs & _ & _ & Hk).
  exists before, after. split; assumption.
Defined.

Lemma react_info_is_plain_witness :
  ElementScript.getReactInfo sample_target =
  Some {| ElementScript.name := "SaveButton";
          ElementScript.props :=
            [("label", ElementScript.JsString "Save");
             ("disabled", ElementScript.JsBoolean false)] |}
  /\ Forall (fun entry => fst entry <> "children"
                          /\ snd entry <> ElementScript.JsFunction
                          /\ snd entry <> ElementScript.JsObject)
            [("label", ElementScript.JsString "Save");
             ("disabled", ElementScript.JsBoolean false)].
Proof.
  split; [reflexivity|].
  exact (proj1 (proj2 (react_info_is_plain sample_target _ eq_refl))).
Defined.

Lemma element_text_is_bounded_witness :
  exists info,
    ElementScript.get_element (fun s => s) (fun s => [s])
      (Some sample_target) = Some info
    /\ ElementScript.text info = Some "Save"
    /\ ElementScript.element_tag info = "BUTTON".
Proof.
  eexists. split; [reflexivity|]. split; [reflexivity|].
  exact (proj1 (proj2 (element_text_is_bounded (fun s => s) (fun s => [s])
                         (Some sample_target))
                      sample_target _ eq_refl eq_refl)).
Defined.
